(** * Reverse-check SOP verification engine (syngene): a shallow embedding

    This development embeds the Python sources [src/verification/verifier.py]
    ([SOPVerifier]), [src/ingestion/normalizer.py] ([RequirementNormalizer]),
    [src/ingestion/embedder.py] ([RequirementEmbedder]),
    [src/ingestion/parser.py] ([DocumentParser], PDF and DOCX parsing),
    [src/ingestion/indexer.py] ([ReferenceIndexer.process_and_index]), the
    verification flows of [src/main.py] and [src/app2.py], and the way
    [src/main.py], [src/app.py], [src/app1.py] and [src/app2.py] read the gap
    report.

    Numbers.  The code computes with numpy [float64]; it is modelled with the
    primitive IEEE-754 binary64 floats of Rocq ([PrimFloat]), whose [+], [*],
    [/] and [sqrt] are the correctly rounded operations numpy uses. *)

From Stdlib Require Import List Bool ZArith Lia String Ascii Floats Sorting Permutation.
Import ListNotations.

Open Scope string_scope.
Open Scope list_scope.
Set Warnings "-inexact-float,-register-all,-abstract-large-number".

(** ** IEEE comparisons

    [PrimFloat.ltb] and [PrimFloat.leb] are Python's [<] and [<=] on floats.
    Their specification goes through [SFcompare]; we need that this order is
    a total preorder away from NaN. *)

Ltac sf_cmp :=
  repeat match goal with
  | |- context [Z.compare ?a ?b] => destruct (Z.compare_spec a b)
  | H : context [Z.compare ?a ?b] |- _ => destruct (Z.compare_spec a b)
  | |- context [Pos.compare_cont Eq ?a ?b] =>
      change (Pos.compare_cont Eq a b) with (Pos.compare a b);
      destruct (Pos.compare_spec a b)
  | H : context [Pos.compare_cont Eq ?a ?b] |- _ =>
      change (Pos.compare_cont Eq a b) with (Pos.compare a b) in H;
      destruct (Pos.compare_spec a b)
  end; subst; simpl in *; try discriminate; try lia; try reflexivity.

Lemma SFcompare_swap (a b : spec_float) :
  SFcompare b a = option_map CompOpp (SFcompare a b).
Proof.
  destruct a as [sa|sa| |sa ma ea], b as [sb|sb| |sb mb eb];
    try destruct sa; try destruct sb; simpl; try reflexivity;
    sf_cmp.
Qed.

Ltac sf_cases a b c :=
  destruct a as [?sa|?sa| |?sa ?ma ?ea], b as [?sb|?sb| |?sb ?mb ?eb],
           c as [?sc|?sc| |?sc ?mc ?ec];
  repeat match goal with s : bool |- _ => destruct s end;
  unfold SFleb, SFltb in *; simpl in *; try discriminate; try reflexivity.


Lemma SFleb_ltb_trans (a b c : spec_float) :
  SFleb a b = true -> SFltb b c = true -> SFltb a c = true.
Proof. intros H1 H2; sf_cases a b c; sf_cmp. Qed.



Lemma SFltb_leb_false (a b : spec_float) :
  SFltb a b = true -> SFleb b a = false.
Proof.
  unfold SFleb, SFltb. rewrite (SFcompare_swap a b).
  destruct (SFcompare a b) as [[]|]; simpl; congruence.
Qed.

(** The same facts on primitive floats. A float [x] is not NaN exactly when
    [x <=? x]. *)

Open Scope float_scope.


Lemma fle_flt_trans (a b c : float) : (a <=? b) = true -> (b <? c) = true -> (a <? c) = true.
Proof. rewrite leb_spec, !ltb_spec. apply SFleb_ltb_trans. Qed.



Lemma flt_fle_false (a b : float) : (a <? b) = true -> (b <=? a) = false.
Proof. rewrite leb_spec, ltb_spec. apply SFltb_leb_false. Qed.


Lemma fle_refl_l (a b : float) : (a <=? b) = true -> (a <=? a) = true.
Proof.
  rewrite !leb_spec. unfold SFleb. destruct (Prim2SF a) as [sa|sa| |sa ma ea];
  destruct (Prim2SF b) as [sb|sb| |sb mb eb]; simpl; try discriminate;
  repeat match goal with s : bool |- _ => destruct s end; simpl; try reflexivity;
  sf_cmp.
Qed.

Lemma fle_refl_r (a b : float) : (a <=? b) = true -> (b <=? b) = true.
Proof.
  rewrite !leb_spec. unfold SFleb. destruct (Prim2SF a) as [sa|sa| |sa ma ea];
  destruct (Prim2SF b) as [sb|sb| |sb mb eb]; simpl; try discriminate;
  repeat match goal with s : bool |- _ => destruct s end; simpl; try reflexivity;
  sf_cmp.
Qed.

(** ** numpy vector arithmetic

    A vector is a list of floats and the embeddings matrix a list of rows.
    Sums are taken left to right. *)

Definition vec := list float.

Definition fsum (l : list float) : float := fold_left PrimFloat.add l 0.

(** [np.dot(u, v)] on two 1-D arrays; [None] is numpy's [ValueError] on
    shapes that are not aligned. *)
Definition dot (u v : vec) : option float :=
  if Nat.eqb (List.length u) (List.length v)
  then Some (fsum (map (fun p => fst p * snd p) (combine u v)))
  else None.

(** [np.linalg.norm(v)]: the Euclidean norm. *)
Definition norm (v : vec) : float := PrimFloat.sqrt (fsum (map (fun x => x * x) v)).

Definition eps : float := 1e-10.

(** [v / (np.linalg.norm(v) + 1e-10)]. *)
Definition normalize (v : vec) : vec := map (fun x => x / (norm v + eps)) v.

(** [np.dot(M, q)] for a 2-D [M] and a 1-D [q]: one score per row, and a
    [ValueError] when the row length differs from the length of [q]. *)
Fixpoint dot_rows (M : list vec) (q : vec) : option (list float) :=
  match M with
  | [] => Some []
  | r :: M' =>
      match dot r q, dot_rows M' q with
      | Some s, Some ss => Some (s :: ss)
      | _, _ => None
      end
  end.

(** [.size] of the array built from the rows. *)
Definition matrix_size (M : list vec) : nat := fold_left (fun n r => n + List.length r)%nat M 0%nat.

Close Scope float_scope.

(** ** numpy [argsort]

    numpy compares floats with [a < b || (b != b && a == a)], which sends
    NaN to the end.  The default [argsort] ([kind='quicksort'], an
    introsort) sorts any partition of at most 16 elements by insertion sort:
    element [i] is moved left past every earlier element it is strictly
    less than.  That is the model below; it is numpy's order for evidence
    stores of up to 16 chunks only, since larger arrays are first
    partitioned, which does not keep the order of equal scores.  It is the
    order of numpy's portable sort; a build that dispatches [argsort] to a
    SIMD sort for the CPU is not modelled.  [ins_desc] works on the sorted prefix kept
    in reverse (largest first), so scanning it from its head is numpy's scan
    from the right. *)

Definition np_lt (a b : float) : bool :=
  PrimFloat.ltb a b || (negb (PrimFloat.eqb b b) && PrimFloat.eqb a a).

Definition score_at (scores : list float) (i : nat) : float := nth i scores 0%float.

Fixpoint ins_desc (scores : list float) (i : nat) (rl : list nat) : list nat :=
  match rl with
  | [] => [i]
  | j :: rl' =>
      if np_lt (score_at scores i) (score_at scores j)
      then j :: ins_desc scores i rl'
      else i :: j :: rl'
  end.

Definition argsort_rev (scores : list float) : list nat :=
  fold_left (fun acc i => ins_desc scores i acc) (seq 0 (List.length scores)) [].

(** [np.argsort(scores)], ascending. *)
Definition argsort (scores : list float) : list nat := rev (argsort_rev scores).

(** Python's [xs[-k:]] (for [k > 0]). *)
Definition last_n {A} (k : nat) (xs : list A) : list A :=
  skipn (List.length xs - k) xs.


(** ** Evidence store ([SOPVerifier.ingest_sop]) *)

Record raw_chunk := { rc_text : string; rc_page : Z; rc_source : string }.

(** One item of [self.sop_store]: the dict built from a parsed chunk
    ([full_requirement_text] and [text] are both the chunk text) enriched
    with its [embedding]. *)
Record sop_item := {
  si_text : string;
  si_page : Z;
  si_source : string;
  si_embedding : vec
}.

(** One entry of the list [_search_sop] returns: [{'chunk': ..., 'score': ...}]. *)
Record scored := { sc_chunk : sop_item; sc_score : float }.

Inductive exn :=
| ValueError (msg : string)
| IndexError
| StopException.

Inductive res (A : Type) := Ok (a : A) | Raise (e : exn).
Arguments Ok {A} a.
Arguments Raise {A} e.

Fixpoint lookup_all {A} (xs : list A) (idx : list nat) : option (list A) :=
  match idx with
  | [] => Some []
  | i :: idx' =>
      match nth_error xs i, lookup_all xs idx' with
      | Some x, Some ys => Some (x :: ys)
      | _, _ => None
      end
  end.

(** [SOPVerifier._search_sop(query_vec, top_k)], with the state it reads:
    [self.sop_embeddings_matrix] ([M], already normalised rows) and
    [self.sop_store]. *)
Definition _search_sop (M : list vec) (store : list sop_item) (query_vec : vec)
    (top_k : nat) : res (list scored) :=
  if Nat.eqb (matrix_size M) 0 then Ok [] else
  let q := normalize query_vec in
  match dot_rows M q with
  | None => Raise (ValueError "shapes not aligned")
  | Some scores =>
      let top_indices := rev (last_n top_k (argsort scores)) in
      match lookup_all store top_indices with
      | None => Raise IndexError
      | Some chunks =>
          Ok (map (fun p => {| sc_chunk := fst p; sc_score := snd p |})
                  (combine chunks (map (score_at scores) top_indices)))
      end
  end.

(** ** Python strings and [json.loads]

    Python [str] values are modelled as byte strings (UTF-8); slicing and
    [find] count bytes, which agrees with Python on ASCII text. *)

(** [str.isspace] on ASCII: tab, newline, vertical tab, form feed,
    carriage return, the separators 0x1c-0x1f and space. *)
Definition py_space (c : ascii) : bool :=
  let n := nat_of_ascii c in
  (Nat.leb 9 n && Nat.leb n 13) || (Nat.leb 28 n && Nat.leb n 32).

Fixpoint lstrip_l (l : list ascii) : list ascii :=
  match l with
  | c :: l' => if py_space c then lstrip_l l' else l
  | [] => []
  end.

(** [s.strip()] *)
Definition py_strip (s : string) : string :=
  string_of_list_ascii (rev (lstrip_l (rev (lstrip_l (list_ascii_of_string s))))).

Definition py_startswith (s p : string) : bool := String.prefix p s.

Definition py_endswith (s p : string) : bool :=
  Nat.leb (String.length p) (String.length s) && String.eqb (substring (String.length s - String.length p) (String.length p) s) p.

(** [s[i:j]] for [0 <= i], [0 <= j]. *)
Definition py_slice (s : string) (i j : nat) : string :=
  substring i (Nat.min j (String.length s) - i) s.

(** [s[i:]] and [s[:-k]]. *)
Definition py_drop (i : nat) (s : string) : string := substring i (String.length s - i) s.
Definition py_drop_last (k : nat) (s : string) : string := substring 0 (String.length s - k) s.

Fixpoint find_from (c : ascii) (l : list ascii) (i : nat) : option nat :=
  match l with
  | [] => None
  | d :: l' => if Ascii.eqb c d then Some i else find_from c l' (S i)
  end.

(** [s.find(c)]; [None] is Python's [-1]. *)
Definition py_find (s : string) (c : ascii) : option nat := find_from c (list_ascii_of_string s) 0.

(** [s.rfind(c)]; [None] is Python's [-1]. *)
Definition py_rfind (s : string) (c : ascii) : option nat :=
  match find_from c (rev (list_ascii_of_string s)) 0 with
  | None => None
  | Some k => Some (String.length s - 1 - k)%nat
  end.

(** JSON values as [json.loads] returns them.  A number keeps its lexeme. *)
Inductive jvalue :=
| JNull
| JBool (b : bool)
| JNum (lexeme : string)
| JStr (s : string)
| JArr (items : list jvalue)
| JObj (members : list (string * jvalue)).

(** Python truthiness of the decoded value ([not v] is [negb (truthy v)]). *)
Definition truthy (v : jvalue) : bool :=
  match v with
  | JNull => false
  | JBool b => b
  | JNum lx =>
      (* zero exactly when every digit before the exponent is 0 *)
      let fix nz (l : list ascii) : bool :=
        match l with
        | [] => false
        | c :: l' =>
            if Ascii.eqb c "e" || Ascii.eqb c "E" then false
            else if Ascii.eqb c "N" || Ascii.eqb c "I" then true
            else if Nat.leb 49 (nat_of_ascii c) && Nat.leb (nat_of_ascii c) 57
            then true else nz l'
        end in
      nz (list_ascii_of_string lx)
  | JStr s => negb (String.eqb s EmptyString)
  | JArr l => match l with [] => false | _ => true end
  | JObj m => match m with [] => false | _ => true end
  end.

(** *** [json.loads]

    A recursive-descent reader of Python's [json] grammar: JSON whitespace,
    [null], [true], [false], Python's extra [NaN], [Infinity] and
    [-Infinity], numbers, strings (escapes decoded, [\uXXXX] to UTF-8,
    surrogate pairs joined, raw control characters refused) and nested
    arrays and objects; anything left after the value is an error. *)

Definition json_ws (c : ascii) : bool :=
  Ascii.eqb c " " || Ascii.eqb c (ascii_of_nat 9) || Ascii.eqb c (ascii_of_nat 10)
  || Ascii.eqb c (ascii_of_nat 13).

Fixpoint skip_ws (l : list ascii) : list ascii :=
  match l with
  | c :: l' => if json_ws c then skip_ws l' else l
  | [] => []
  end.

Definition is_digit (c : ascii) : bool :=
  Nat.leb 48 (nat_of_ascii c) && Nat.leb (nat_of_ascii c) 57.

Fixpoint take_digits (l : list ascii) : list ascii * list ascii :=
  match l with
  | c :: l' =>
      if is_digit c then let (d, r) := take_digits l' in (c :: d, r) else ([], l)
  | [] => ([], [])
  end.

(** The number regex of [json.scanner]: an optional minus, then [0] or a
    digit 1-9 with more digits, an optional fraction [.] with digits and an
    optional exponent [e]/[E] with optional sign and digits. *)
Definition lex_number (l : list ascii) : option (list ascii * list ascii) :=
  let (sign, l1) := match l with "-"%char :: r => (["-"%char], r) | _ => ([], l) end in
  let int_part :=
    match l1 with
    | "0"%char :: r => Some (["0"%char], r)
    | c :: _ => if is_digit c then Some (take_digits l1) else None
    | [] => None
    end in
  match int_part with
  | None => None
  | Some (ip, l2) =>
      let (fp, l3) :=
        match l2 with
        | "."%char :: r =>
            match take_digits r with
            | ([], _) => ([], l2)
            | (ds, r') => ("."%char :: ds, r')
            end
        | _ => ([], l2)
        end in
      let (ep, l4) :=
        match l3 with
        | e :: r =>
            if Ascii.eqb e "e" || Ascii.eqb e "E" then
              let (sg, r1) := match r with
                              | s :: r1 => if Ascii.eqb s "+" || Ascii.eqb s "-"
                                           then ([s], r1) else ([], r)
                              | [] => ([], r) end in
              match take_digits r1 with
              | ([], _) => ([], l3)
              | (ds, r') => (e :: sg ++ ds, r')
              end
            else ([], l3)
        | [] => ([], l3)
        end in
      Some (sign ++ ip ++ fp ++ ep, l4)
  end.

Definition hex_val (c : ascii) : option nat :=
  let n := nat_of_ascii c in
  if Nat.leb 48 n && Nat.leb n 57 then Some (n - 48)
  else if Nat.leb 65 n && Nat.leb n 70 then Some (n - 55)
  else if Nat.leb 97 n && Nat.leb n 102 then Some (n - 87)
  else None.

Definition hex4 (l : list ascii) : option (nat * list ascii) :=
  match l with
  | a :: b :: c :: d :: r =>
      match hex_val a, hex_val b, hex_val c, hex_val d with
      | Some x, Some y, Some z, Some w => Some (((x * 16 + y) * 16 + z) * 16 + w, r)
      | _, _, _, _ => None
      end
  | _ => None
  end.

(** UTF-8 bytes of a code point. *)
Definition utf8 (n : nat) : list ascii :=
  if Nat.ltb n 128 then [ascii_of_nat n]
  else if Nat.ltb n 2048 then
    [ascii_of_nat (192 + n / 64); ascii_of_nat (128 + n mod 64)]
  else if Nat.ltb n 65536 then
    [ascii_of_nat (224 + n / 4096); ascii_of_nat (128 + (n / 64) mod 64);
     ascii_of_nat (128 + n mod 64)]
  else
    [ascii_of_nat (240 + n / 262144); ascii_of_nat (128 + (n / 4096) mod 64);
     ascii_of_nat (128 + (n / 64) mod 64); ascii_of_nat (128 + n mod 64)].

(** Body of a string literal, after the opening quote. *)
Fixpoint lex_string (fuel : nat) (l : list ascii) (acc : list ascii)
    : option (string * list ascii) :=
  match fuel with
  | O => None
  | S f =>
      match l with
      | [] => None
      | "034"%char :: r => Some (string_of_list_ascii (rev acc), r)
      | "\"%char :: e :: r =>
          let simple (c : ascii) := lex_string f r (c :: acc) in
          if Ascii.eqb e "034" then simple "034"%char
          else if Ascii.eqb e "\" then simple "\"%char
          else if Ascii.eqb e "/" then simple "/"%char
          else if Ascii.eqb e "b" then simple (ascii_of_nat 8)
          else if Ascii.eqb e "f" then simple (ascii_of_nat 12)
          else if Ascii.eqb e "n" then simple (ascii_of_nat 10)
          else if Ascii.eqb e "r" then simple (ascii_of_nat 13)
          else if Ascii.eqb e "t" then simple (ascii_of_nat 9)
          else if Ascii.eqb e "u" then
            match hex4 r with
            | None => None
            | Some (u, r1) =>
                if Nat.leb 55296 u && Nat.leb u 56319 then
                  match r1 with
                  | "\"%char :: "u"%char :: r2 =>
                      match hex4 r2 with
                      | Some (u2, r3) =>
                          if Nat.leb 56320 u2 && Nat.leb u2 57343 then
                            lex_string f r3
                              (rev (utf8 (65536 + (u - 55296) * 1024 + (u2 - 56320))) ++ acc)
                          else lex_string f r1 (rev (utf8 u) ++ acc)
                      | None => lex_string f r1 (rev (utf8 u) ++ acc)
                      end
                  | _ => lex_string f r1 (rev (utf8 u) ++ acc)
                  end
                else lex_string f r1 (rev (utf8 u) ++ acc)
            end
          else None
      | "\"%char :: [] => None
      | c :: r => if Nat.ltb (nat_of_ascii c) 32 then None else lex_string f r (c :: acc)
      end
  end.

Fixpoint starts (p l : list ascii) : option (list ascii) :=
  match p, l with
  | [], _ => Some l
  | a :: p', b :: l' => if Ascii.eqb a b then starts p' l' else None
  | _, [] => None
  end.

Definition lit (s : string) := list_ascii_of_string s.

Fixpoint parse_value (fuel : nat) (l : list ascii) : option (jvalue * list ascii) :=
  match fuel with
  | O => None
  | S f =>
      let l := skip_ws l in
      match l with
      | "{"%char :: r =>
          match skip_ws r with
          | "}"%char :: r' => Some (JObj [], r')
          | r' => parse_members f r' []
          end
      | "["%char :: r =>
          match skip_ws r with
          | "]"%char :: r' => Some (JArr [], r')
          | r' => parse_items f r' []
          end
      | "034"%char :: r =>
          match lex_string (List.length r + 1) r [] with
          | Some (s, r') => Some (JStr s, r')
          | None => None
          end
      | _ =>
          match starts (lit "null") l with Some r => Some (JNull, r) | None =>
          match starts (lit "true") l with Some r => Some (JBool true, r) | None =>
          match starts (lit "false") l with Some r => Some (JBool false, r) | None =>
          match starts (lit "NaN") l with Some r => Some (JNum "NaN", r) | None =>
          match starts (lit "Infinity") l with Some r => Some (JNum "Infinity", r) | None =>
          match starts (lit "-Infinity") l with Some r => Some (JNum "-Infinity", r) | None =>
          match lex_number l with
          | Some (lx, r) => Some (JNum (string_of_list_ascii lx), r)
          | None => None
          end end end end end end end
      end
  end
with parse_items (fuel : nat) (l : list ascii) (acc : list jvalue)
    : option (jvalue * list ascii) :=
  match fuel with
  | O => None
  | S f =>
      match parse_value f l with
      | None => None
      | Some (v, r) =>
          match skip_ws r with
          | "]"%char :: r' => Some (JArr (rev (v :: acc)), r')
          | ","%char :: r' => parse_items f r' (v :: acc)
          | _ => None
          end
      end
  end
with parse_members (fuel : nat) (l : list ascii) (acc : list (string * jvalue))
    : option (jvalue * list ascii) :=
  match fuel with
  | O => None
  | S f =>
      match l with
      | "034"%char :: r =>
          match lex_string (List.length r + 1) r [] with
          | None => None
          | Some (k, r1) =>
              match skip_ws r1 with
              | ":"%char :: r2 =>
                  match parse_value f r2 with
                  | None => None
                  | Some (v, r3) =>
                      match skip_ws r3 with
                      | "}"%char :: r4 => Some (JObj (rev ((k, v) :: acc)), r4)
                      | ","%char :: r4 => parse_members f (skip_ws r4) ((k, v) :: acc)
                      | _ => None
                      end
                  end
              | _ => None
              end
          end
      | _ => None
      end
  end.

(** [json.loads(s)]; [None] is the [JSONDecodeError] it raises. *)
Definition json_loads (s : string) : option jvalue :=
  let l := list_ascii_of_string s in
  match parse_value (3 * List.length l + 3) l with
  | Some (v, r) => match skip_ws r with [] => Some v | _ => None end
  | None => None
  end.

(** [d.get(k, default)] on a decoded object: the last binding of [k] wins,
    as when Python builds the dict. *)
Definition jget (members : list (string * jvalue)) (k : string) (default : jvalue) : jvalue :=
  match find (fun kv => String.eqb (fst kv) k) (rev members) with
  | Some (_, v) => v
  | None => default
  end.

(** Test strings below write ['] for a double quote. *)
Definition dq (s : string) : string :=
  string_of_list_ascii
    (map (fun c => if Ascii.eqb c "039" then "034"%char else c) (list_ascii_of_string s)).

Example json_loads_obj :
  json_loads (dq " {'status': 'PRESENT', 'n': [1, -2.5e3, true, null]} ") =
  Some (JObj [("status", JStr "PRESENT");
              ("n", JArr [JNum "1"; JNum "-2.5e3"; JBool true; JNull])]).
Proof. reflexivity. Qed.

Example json_loads_bad : json_loads "NORMALIZATION_FAILED" = None.
Proof. reflexivity. Qed.

Example json_loads_esc :
  json_loads (dq "['a\u00e9\n', 01]") = None /\
  json_loads (dq "['a\u00e9\n']") = Some (JArr [JStr ("a" ++ String "195" (String "169" (String "010" EmptyString))) ]).
Proof. split; reflexivity. Qed.

(** ** Number formatting *)

Fixpoint digits_rev (fuel : nat) (n : Z) : list ascii :=
  match fuel with
  | O => []
  | S f =>
      let d := ascii_of_nat (48 + Z.to_nat (n mod 10)) in
      if (n <? 10)%Z then [d] else d :: digits_rev f (n / 10)
  end.

(** [str(n)] for a natural number [n]. *)
Definition nat_digits (n : Z) : string := string_of_list_ascii (rev (digits_rev 1000 n)).

(** [str(n)] for a Python [int]. *)
Definition py_str_int (n : Z) : string :=
  if (n <? 0)%Z then ("-" ++ nat_digits (- n))%string else nat_digits n.

(** Round [num / den] to the nearest integer, ties to even. *)
Definition round_half_even (num den : Z) : Z :=
  let q := (num / den)%Z in
  let r := (num mod den)%Z in
  match Z.compare (2 * r) den with
  | Lt => q
  | Gt => q + 1
  | Eq => if Z.even q then q else q + 1
  end%Z.

(** [format(x, '.2f')]: the exact binary value rounded to two decimals,
    ties to even, as Python's float formatting does. *)
Definition format_2f (x : float) : string :=
  let body (s : bool) (hundredths : Z) :=
    ((if s then "-" else EmptyString) ++ nat_digits (hundredths / 100) ++ "."
     ++ string_of_list_ascii
          [ascii_of_nat (48 + Z.to_nat ((hundredths / 10) mod 10));
           ascii_of_nat (48 + Z.to_nat (hundredths mod 10))])%string in
  match Prim2SF x with
  | S754_zero s => body s 0%Z
  | S754_infinity s => if s then "-inf" else "inf"
  | S754_nan => "nan"
  | S754_finite s m e =>
      if (0 <=? e)%Z then body s (Zpos m * 100 * 2 ^ e)%Z
      else body s (round_half_even (Zpos m * 100) (2 ^ (- e)))
  end.

Example format_2f_examples :
  format_2f 0%float = "0.00" /\ format_2f 0.125%float = "0.12" /\ format_2f 0.375%float = "0.38"
  /\ format_2f 0.349999%float = "0.35" /\ format_2f (-0.001)%float = "-0.00"
  /\ format_2f 12.5%float = "12.50".
Proof. repeat split; reflexivity. Qed.

(** ** Run effects

    A verification run raises Python exceptions and talks to the outside:
    it loads the index, ingests the SOP and calls the adjudicator.  [M] keeps
    the log of those events next to the result. *)

Inductive event :=
| EvLoadIndex
| EvIngestSop
| EvAdjudicatorCall (req_text : string) (attempt : nat).

Definition M (A : Type) := list event -> list event * res A.

Definition ret {A} (a : A) : M A := fun log => (log, Ok a).

Definition bind {A B} (m : M A) (k : A -> M B) : M B :=
  fun log =>
    match m log with
    | (log', Ok a) => k a log'
    | (log', Raise e) => (log', Raise e)
    end.

Definition throw {A} (e : exn) : M A := fun log => (log, Raise e).

Definition emit (ev : event) : M unit := fun log => (log ++ [ev], Ok tt).

Definition lift {A} (r : res A) : M A := fun log => (log, r).

Notation "x <- c1 ;; c2" := (bind c1 (fun x => c2))
  (at level 61, c1 at next level, right associativity).
Notation "c1 ;;; c2" := (bind c1 (fun _ => c2)) (at level 61, right associativity).

Definition run {A} (m : M A) : list event * res A := m [].

Definition adjudicator_calls (log : list event) : nat :=
  List.length (filter (fun ev => match ev with EvAdjudicatorCall _ _ => true | _ => false end) log).

(** ** The adjudicator ([SOPVerifier._llm_validation]) *)

(** One [bedrock_client.invoke_model] attempt as the loop sees it: either
    an exception (throttling, timeout, a malformed response body) or the
    text [text_out] taken from the response body. *)
Inductive reply :=
| Raised (msg : string)
| Replied (text_out : string).

(** The service behind the adjudicator.  The prompt is built from the
    requirement text and the retrieved chunks, so the service is a function
    of those, and of the attempt number (a transient failure can clear on a
    retry). *)
Definition adjudicator := string -> list scored -> nat -> reply.

Definition STATUS_PRESENT := "PRESENT".
Definition STATUS_PARTIAL := "PARTIAL".
Definition STATUS_MISSING := "MISSING".
Definition NOT_FOUND := "Not Found".

(** [if status not in ["PRESENT", "PARTIAL", "MISSING"]: status = "MISSING"] *)
Definition validate_status (v : jvalue) : string :=
  match v with
  | JStr s =>
      if String.eqb s STATUS_PRESENT || String.eqb s STATUS_PARTIAL
         || String.eqb s STATUS_MISSING
      then s else STATUS_MISSING
  | _ => STATUS_MISSING
  end.

(** The fence stripping shared by [_llm_validation] and [_parse_response]. *)
Definition clean_fences (text_out : string) : string :=
  let c0 := py_strip text_out in
  let c1 := if py_startswith c0 "```json" then py_drop 7 c0 else c0 in
  let c2 := if py_endswith c1 "```" then py_drop_last 3 c1 else c1 in
  py_strip c2.

(** What one attempt of the [try] block does: [inl] is a return of the
    function, [inr tt] an exception caught by [except]. *)
Definition llm_attempt (r : reply) : (string * jvalue * jvalue) + unit :=
  match r with
  | Raised _ => inr tt
  | Replied text_out =>
      let clean_text := clean_fences text_out in
      match py_find clean_text "{" with
      | Some start =>
          let end_ := match py_rfind clean_text "}" with Some k => S k | None => 0 end in
          match json_loads (py_slice clean_text start end_) with
          | Some (JObj data) =>
              let status := jget data "status" (JStr STATUS_MISSING) in
              let justification := jget data "justification" (JStr "LLM parsed.") in
              let sop_evidence := jget data "sop_evidence" (JStr NOT_FOUND) in
              inl (validate_status status, justification, sop_evidence)
          | _ => inr tt  (* JSONDecodeError, or [.get] on a non-dict *)
          end
      | None =>
          inl (STATUS_MISSING,
               JStr ("LLM output unparseable: " ++ py_slice clean_text 0 50)%string,
               JStr NOT_FOUND)
      end
  end.

Definition max_retries : nat := 3.

(** [for attempt in range(max_retries + 1)]: [remaining] attempts are left,
    starting with attempt number [attempt]. *)
Fixpoint llm_loop (adj : adjudicator) (req_text : string) (chunks : list scored)
    (attempt remaining : nat) : M (string * jvalue * jvalue) :=
  match remaining with
  | O => ret (STATUS_MISSING, JStr "LLM Max Retries.", JStr NOT_FOUND)
  | S rem =>
      emit (EvAdjudicatorCall req_text attempt) ;;;
      match llm_attempt (adj req_text chunks attempt) with
      | inl out => ret out
      | inr _ =>
          if Nat.ltb attempt max_retries
          then llm_loop adj req_text chunks (S attempt) rem
          else ret (STATUS_MISSING, JStr "LLM Error.", JStr NOT_FOUND)
      end
  end.

Definition _llm_validation (adj : adjudicator) (req_text : string) (sop_chunks : list scored)
    : M (string * jvalue * jvalue) :=
  llm_loop adj req_text sop_chunks 0 (S max_retries).

(** ** Verification state and records *)

(** A Reference Index entry as the Indexer writes it (a dict produced by
    [normalize_text] and enriched by [embed_requirements]). *)
Record ref_req := {
  requirement_id : string;
  full_requirement_text : string;
  original_text : string;
  mandatory_level : string;
  source_document : string;
  page_number : Z;
  embedding : vec
}.

(** A dict appended to [gaps] by [verify_documents]. *)
Record gap := {
  g_requirement_id : string;
  g_status : string;
  g_reference_requirement : string;
  g_reference_context : string;
  g_reference_source : string;
  g_severity : string;
  g_sop_evidence : jvalue;
  g_justification : jvalue
}.

(** The attributes of [SOPVerifier] the runtime engine reads and writes. *)
Record verifier := {
  reference_index : list ref_req;
  sop_store : list sop_item;
  sop_embeddings_matrix : list vec
}.

Definition fresh_verifier : verifier :=
  {| reference_index := []; sop_store := []; sop_embeddings_matrix := [] |}.

(** ** [SOPVerifier.load_reference_index]

    [content] is what reading the key and [json.loads] produce; [None] is an
    exception there (missing file or key, malformed JSON), which is
    re-raised. *)
Definition load_reference_index (v : verifier) (content : option (list ref_req)) : M verifier :=
  emit EvLoadIndex ;;;
  match content with
  | Some idx => ret {| reference_index := idx; sop_store := sop_store v;
                       sop_embeddings_matrix := sop_embeddings_matrix v |}
  | None => throw (ValueError "Error loading reference index")
  end.

(** ** [RequirementEmbedder.embed_requirements]

    [encoded] is the result of [self.model.encode(texts)]; [None] is an
    exception there.  Fewer vectors than items makes [embeddings[i]] raise
    inside the same [try], so every item then gets the empty vector. *)
Definition embed_requirements {A} (set_embedding : A -> vec -> A)
    (encoded : option (list vec)) (items : list A) : list A :=
  let failed := map (fun it => set_embedding it []) items in
  match encoded with
  | Some es =>
      if Nat.leb (List.length items) (List.length es)
      then map (fun p => set_embedding (fst p) (snd p)) (combine items es)
      else failed
  | None => failed
  end.

Definition set_sop_embedding (it : sop_item) (e : vec) : sop_item :=
  {| si_text := si_text it; si_page := si_page it; si_source := si_source it;
     si_embedding := e |}.

(** The dicts [ingest_sop] builds from the parsed chunks, before the
    embedder adds their [embedding]. *)
Definition sop_items_of (raw_chunks : list raw_chunk) : list sop_item :=
  map (fun c => {| si_text := rc_text c; si_page := rc_page c;
                   si_source := rc_source c; si_embedding := [] |}) raw_chunks.

(** ** [SOPVerifier.ingest_sop]

    [raw_chunks] is what [self.parser.parse_file] returns for the file. *)
Definition ingest_sop (v : verifier) (raw_chunks : list raw_chunk)
    (encoded : option (list vec)) : M verifier :=
  emit EvIngestSop ;;;
  let sop_items := sop_items_of raw_chunks in
  let embedded_items := embed_requirements set_sop_embedding encoded sop_items in
  let embeddings :=
    filter (fun e => match e with [] => false | _ => true end)
           (map si_embedding embedded_items) in
  let matrix := match embeddings with [] => [] | _ => map normalize embeddings end in
  ret {| reference_index := reference_index v; sop_store := embedded_items;
         sop_embeddings_matrix := matrix |}.

(** ** [SOPVerifier.verify_documents] *)

Definition LOW_THRESHOLD : float := 0.35.
Definition TOP_K : nat := 3.

(** [relevant_chunks[0]['score'] if relevant_chunks else 0]; Python's [int]
    0 compares and formats like the float 0. *)
Definition best_score_of (relevant : list scored) : float :=
  match relevant with
  | [] => 0%float
  | c :: _ => sc_score c
  end.

Definition is_not_found (v : jvalue) : bool :=
  match v with JStr s => String.eqb s NOT_FOUND | _ => false end.

Definition no_relevant_justification (best_score : float) : string :=
  ("No relevant SOP sections found (Max Similarity: " ++ format_2f best_score ++ ").")%string.

Definition DOWNGRADE_JUSTIFICATION : string :=
  "LLM returned PRESENT but provided no SOP evidence. treated as MISSING.".

(** Steps 2 and 3 of the loop for one requirement: the decision and the
    enforcement rule, giving [(status, justification, sop_evidence)]. *)
Definition decide (adj : adjudicator) (req_text : string) (relevant_chunks : list scored)
    : M (string * jvalue * jvalue) :=
  let best_score := best_score_of relevant_chunks in
  if match relevant_chunks with [] => true | _ => false end
     || PrimFloat.ltb best_score LOW_THRESHOLD
  then ret (STATUS_MISSING, JStr (no_relevant_justification best_score), JStr NOT_FOUND)
  else
    out <- _llm_validation adj req_text relevant_chunks ;;
    let '(status, justification, sop_evidence) := out in
    if String.eqb status STATUS_PRESENT
       && (negb (truthy sop_evidence) || is_not_found sop_evidence)
    then ret (STATUS_MISSING, JStr DOWNGRADE_JUSTIFICATION, JStr NOT_FOUND)
    else ret (status, justification, sop_evidence).

(** Step 4: the gap recorded for a requirement, if any. *)
Definition record_gap (req : ref_req) (out : string * jvalue * jvalue) : option gap :=
  let '(status, justification, sop_evidence) := out in
  if String.eqb status STATUS_MISSING || String.eqb status STATUS_PARTIAL then
    Some {| g_requirement_id := requirement_id req;
            g_status := status;
            g_reference_requirement := full_requirement_text req;
            g_reference_context := original_text req;
            g_reference_source :=
              (source_document req ++ " (Page " ++ py_str_int (page_number req) ++ ")")%string;
            g_severity := mandatory_level req;
            g_sop_evidence := sop_evidence;
            g_justification := justification |}
  else None.

Definition append_opt {A} (xs : list A) (o : option A) : list A :=
  match o with Some x => xs ++ [x] | None => xs end.

(** The [for] loop over [self.reference_index], with [gaps] accumulated. *)
Fixpoint verify_loop (adj : adjudicator) (v : verifier) (reqs : list ref_req)
    (gaps : list gap) : M (list gap) :=
  match reqs with
  | [] => ret gaps
  | req :: reqs' =>
      relevant_chunks <- lift (_search_sop (sop_embeddings_matrix v) (sop_store v)
                                           (embedding req) TOP_K) ;;
      out <- decide adj (full_requirement_text req) relevant_chunks ;;
      verify_loop adj v reqs' (append_opt gaps (record_gap req out))
  end.

Definition verify_documents (adj : adjudicator) (v : verifier) : M (list gap) :=
  match reference_index v, sop_store v with
  | [], _ | _, [] => throw (ValueError "Reference Index or SOP Store not initialized.")
  | _, _ => verify_loop adj v (reference_index v) []
  end.

(** ** Verification flows *)

Definition try_except {A} (m : M A) (handler : exn -> M A) : M A :=
  fun log =>
    match m log with
    | (log', Raise e) => handler e log'
    | r => r
    end.

(** [verify] mode of [src/main.py]: a failed load prints and returns
    ([None]); otherwise the SOP is ingested and verified. *)
Definition main_verify (adj : adjudicator) (content : option (list ref_req))
    (raw_chunks : list raw_chunk) (encoded : option (list vec)) : M (option (list gap)) :=
  loaded <- try_except (v <- load_reference_index fresh_verifier content ;; ret (Some v))
                       (fun _ => ret None) ;;
  match loaded with
  | None => ret None
  | Some v =>
      v' <- ingest_sop v raw_chunks encoded ;;
      gaps <- verify_documents adj v' ;;
      ret (Some gaps)
  end.

(** Python's [needle in haystack] on strings. *)
Definition py_in (needle haystack : string) : bool :=
  match String.index 0 needle haystack with Some _ => true | None => false end.

(** The verification tab of [src/app2.py]: load, the two hard rule checks
    ([st.stop()] raises Streamlit's [StopException]), ingest, verify. *)
Definition app2_verify (adj : adjudicator) (content : option (list ref_req))
    (raw_chunks : list raw_chunk) (encoded : option (list vec)) : M (list gap) :=
  v <- load_reference_index fresh_verifier content ;;
  match reference_index v with
  | [] => throw StopException
  | idx =>
      if existsb (fun r => py_in "FAIL" (requirement_id r)) idx
      then throw StopException
      else
        v' <- ingest_sop v raw_chunks encoded ;;
        verify_documents adj v'
  end.

(** ** [RequirementNormalizer] *)

(** The chunk dict passed as [source_meta] ([source] and [page] keys). *)
Record source_meta := { sm_source : string; sm_page : Z }.

(** A dict of the list [normalize_text] returns; the text and severity are
    the JSON values the service put there. *)
Record atomic_req := {
  ar_requirement_id : string;
  ar_full_requirement_text : jvalue;
  ar_original_text : string;
  ar_mandatory_level : jvalue;
  ar_source_document : string;
  ar_page_number : Z
}.

(** The decomposition service: the prompt is built from the passage, so the
    reply of attempt [n] is a function of the passage and [n]. *)
Definition decomposer := string -> nat -> reply.

(** [_invoke_bedrock]: [while retry_count < self.max_retries]; [None] is the
    final [raise Exception("Max retries exceeded ...")]. *)
Fixpoint invoke_loop (svc : decomposer) (text : string) (retry_count remaining : nat)
    : option string :=
  match remaining with
  | O => None
  | S rem =>
      match svc text retry_count with
      | Replied t => Some t
      | Raised _ => invoke_loop svc text (S retry_count) rem
      end
  end.

Definition _invoke_bedrock (svc : decomposer) (text : string) : option string :=
  invoke_loop svc text 0 max_retries.

(** The text [_parse_response] hands to [json.loads]: fences stripped, then
    cut to the outermost [[...]] when there is one. *)
Definition array_candidate (response_text : string) : string :=
  let clean_text := clean_fences response_text in
  match py_find clean_text "[", py_rfind clean_text "]" with
  | Some start, Some k => if Nat.ltb start (S k) then py_slice clean_text start (S k) else clean_text
  | _, _ => clean_text
  end.

(** [_parse_response]: a parse error is caught and gives [[]]. *)
Definition _parse_response (response_text : string) : jvalue :=
  match json_loads (array_candidate response_text) with
  | Some v => v
  | None => JArr []
  end.

(** [for ... in requirements]: what iterating a decoded JSON value yields
    (a dict yields its keys, a string its characters); [None] is the
    [TypeError] of a value that is not iterable. *)
Definition py_iter (v : jvalue) : option (list jvalue) :=
  match v with
  | JArr l => Some l
  | JObj m => Some (map (fun kv => JStr (fst kv)) m)
  | JStr s => Some (map (fun c => JStr (String c EmptyString)) (list_ascii_of_string s))
  | _ => None
  end.

Definition req_id_prefix (meta : source_meta) : string :=
  (sm_source meta ++ "-" ++ py_str_int (sm_page meta) ++ "-")%string.

(** The enriched dicts of the loop; [None] when [req.get] raises
    ([AttributeError] on an element that is not a dict). *)
Fixpoint enrich (text_chunk : string) (meta : source_meta) (i : nat) (reqs : list jvalue)
    : option (list atomic_req) :=
  match reqs with
  | [] => Some []
  | JObj req :: reqs' =>
      let result_text := jget req "requirement_text" (JStr EmptyString) in
      let severity := jget req "severity" (JStr "SHOULD") in
      (* [isinstance(req, str)] is false for a dict: the fallback is idle *)
      match enrich text_chunk meta (S i) reqs' with
      | None => None
      | Some rest =>
          Some ({| ar_requirement_id := (req_id_prefix meta ++ py_str_int (Z.of_nat (S i)))%string;
                   ar_full_requirement_text := result_text;
                   ar_original_text := text_chunk;
                   ar_mandatory_level := severity;
                   ar_source_document := sm_source meta;
                   ar_page_number := sm_page meta |} :: rest)
      end
  | _ :: _ => None
  end.

(** The record of the [except] branch: the DecompositionFailure record. *)
Definition failure_record (text_chunk : string) (meta : source_meta) : atomic_req :=
  {| ar_requirement_id := (req_id_prefix meta ++ "FAIL")%string;
     ar_full_requirement_text :=
       JStr ("FAILED TO NORMALIZE: " ++ py_slice text_chunk 0 50 ++ "...")%string;
     ar_original_text := text_chunk;
     ar_mandatory_level := JStr "UNKNOWN";
     ar_source_document := sm_source meta;
     ar_page_number := sm_page meta |}.

(** [RequirementNormalizer.normalize_text(text_chunk, source_meta)]. *)
Definition normalize_text (svc : decomposer) (text_chunk : string) (meta : source_meta)
    : list atomic_req :=
  match _invoke_bedrock svc text_chunk with
  | None => [failure_record text_chunk meta]
  | Some response_text =>
      match py_iter (_parse_response response_text) with
      | None => [failure_record text_chunk meta]
      | Some requirements =>
          match enrich text_chunk meta 0 requirements with
          | Some atomic_reqs => atomic_reqs
          | None => [failure_record text_chunk meta]
          end
      end
  end.

Example normalize_text_ok :
  List.map ar_requirement_id
    (normalize_text (fun _ _ => Replied (dq "```json [{'requirement_text': 'a', 'severity': 'MUST'}, {'requirement_text': 'b'}] ```"))
                    "The text." {| sm_source := "ref.pdf"; sm_page := 4 |})
  = ["ref.pdf-4-1"; "ref.pdf-4-2"].
Proof. reflexivity. Qed.

(** ** [DocumentParser] ([src/ingestion/parser.py])

    A PDF is modelled by what [PdfReader(file_path)] yields: [None] when the
    reader raises, otherwise one entry per page for [page.extract_text()]. *)

Inductive extracted :=
| Text (s : string)   (* [extract_text()] returned a string *)
| NoText              (* it returned [None] *)
| ExtractError.       (* it raised *)

Definition pdf_reader := option (list extracted).

(** The chunk dict [{'text': ..., 'page': i + 1, 'source': source_name}]. *)
Definition page_chunk (src : string) (i : nat) (text : string) : raw_chunk :=
  {| rc_text := text; rc_page := Z.of_nat (S i); rc_source := src |}.

(** The loop of [_parse_pdf_standard] from page [i] on: [if text:] keeps a
    non-empty text, stripped; an exception ends the loop and the [except]
    returns the chunks collected so far. *)
Fixpoint std_pages (src : string) (i : nat) (pages : list extracted) : list raw_chunk :=
  match pages with
  | [] => []
  | Text s :: ps =>
      if String.eqb s EmptyString then std_pages src (S i) ps
      else page_chunk src i (py_strip s) :: std_pages src (S i) ps
  | NoText :: ps => std_pages src (S i) ps
  | ExtractError :: _ => []
  end.

(** [DocumentParser._parse_pdf_standard]: every error is printed and the
    chunks collected so far are returned. *)
Definition _parse_pdf_standard (reader : pdf_reader) (source_name : string) : list raw_chunk :=
  match reader with
  | None => []
  | Some pages => std_pages source_name 0 pages
  end.

(** The response body of the cleanup call: [{'outputs': [{'text': ...}]}],
    [{'choices': [{'message': {'content': ...}}]}], or anything else. *)
Inductive cleanup_body :=
| CbOutputs (text : string)
| CbChoices (content : string)
| CbOther.

(** The cleanup service: [None] is an exception inside the [try] of
    [_invoke_bedrock_cleanup] (the call, the body, a missing first entry).
    The prompt is built from the raw text, so the reply is a function of it. *)
Definition cleaner := string -> option cleanup_body.

(** [DocumentParser._invoke_bedrock_cleanup]. *)
Definition _invoke_bedrock_cleanup (cl : cleaner) (raw_text : string) : string :=
  match cl raw_text with
  | Some (CbOutputs t) => py_strip t
  | Some (CbChoices t) => py_strip t
  | Some CbOther => raw_text
  | None => raw_text
  end.

(** The loop of [_parse_pdf_bedrock]: a blank page is skipped; [None] is an
    exception ([None.strip()] raises [AttributeError], or the extraction
    raises), which the [except] turns into the standard parse. *)
Fixpoint bedrock_pages (cl : cleaner) (src : string) (i : nat) (pages : list extracted)
    : option (list raw_chunk) :=
  match pages with
  | [] => Some []
  | Text raw_text :: ps =>
      if String.eqb (py_strip raw_text) EmptyString then bedrock_pages cl src (S i) ps
      else
        match bedrock_pages cl src (S i) ps with
        | Some rest => Some (page_chunk src i (_invoke_bedrock_cleanup cl raw_text) :: rest)
        | None => None
        end
  | _ :: _ => None
  end.

(** [DocumentParser._parse_pdf_bedrock]; the fallback reads the same file
    again. *)
Definition _parse_pdf_bedrock (cl : cleaner) (reader : pdf_reader) (source_name : string)
    : list raw_chunk :=
  match reader with
  | None => _parse_pdf_standard reader source_name
  | Some pages =>
      match bedrock_pages cl source_name 0 pages with
      | Some results => results
      | None => _parse_pdf_standard reader source_name
      end
  end.

(** [DocumentParser._parse_docx]: [doc] is the paragraph texts of
    [Document(file_path)], [None] when opening it raises (re-raised). *)
Definition _parse_docx (doc : option (list string)) (source_name : string)
    : option (list raw_chunk) :=
  match doc with
  | None => None
  | Some paragraphs =>
      let full_text :=
        flat_map (fun t => if String.eqb (py_strip t) EmptyString then [] else [py_strip t])
                 paragraphs in
      Some [{| rc_text := String.concat (String (ascii_of_nat 10) EmptyString) full_text;
               rc_page := 1; rc_source := source_name |}]
  end.

(** ** [ReferenceIndexer.process_and_index] ([src/ingestion/indexer.py]) *)

(** One saved index entry: a dict of [normalize_text] enriched with its
    [embedding] (both branches of [embed_requirements] set it). *)
Record index_entry := { ie_req : atomic_req; ie_embedding : vec }.

Definition set_entry_embedding (e : index_entry) (v : vec) : index_entry :=
  {| ie_req := ie_req e; ie_embedding := v |}.

(** A reference file as the loop sees it: the chunks of
    [self.parser.parse_file] ([None] when it raises) and the result of
    [self.model.encode] on the texts of the file's requirements. *)
Record ref_file := {
  rf_chunks : option (list raw_chunk);
  rf_encoded : option (list vec)
}.

(** [chunk] is passed as [source_meta]; it has the keys [source] and
    [page]. *)
Definition meta_of (c : raw_chunk) : source_meta :=
  {| sm_source := rc_source c; sm_page := rc_page c |}.

(** The body of the [try] for one file; an exception from [parse_file] is
    printed and the file contributes nothing. *)
Definition process_file (svc : decomposer) (f : ref_file) : list index_entry :=
  match rf_chunks f with
  | None => []
  | Some raw_chunks =>
      let document_requirements :=
        flat_map (fun c => normalize_text svc (rc_text c) (meta_of c)) raw_chunks in
      embed_requirements set_entry_embedding (rf_encoded f)
        (map (fun r => {| ie_req := r; ie_embedding := [] |}) document_requirements)
  end.

(** [process_and_index]: the saved index, [None] when nothing is saved
    (["No requirements found to index."]). *)
Definition process_and_index (svc : decomposer) (files : list ref_file)
    : option (list index_entry) :=
  match flat_map (process_file svc) files with
  | [] => None
  | all_requirements => Some all_requirements
  end.

(** ** Reading the gap report in the front ends

    The gap dicts of [verify_documents] are built with these keys; [gap[k]]
    raises [KeyError] for any other key. *)

Definition gap_keys : list string :=
  ["requirement_id"; "status"; "reference_requirement"; "reference_context";
   "reference_source"; "severity"; "sop_evidence"; "justification"].

Definition gap_has_key (k : string) : bool := existsb (String.eqb k) gap_keys.

(** The first subscript that raises, in evaluation order. *)
Definition first_missing (keys : list string) : option string :=
  find (fun k => negb (gap_has_key k)) keys.

(** The [KeyError] key of the first gap whose rendering subscripts a key the
    dict lacks; [None] when every subscript succeeds. *)
Fixpoint render (keys_of : gap -> list string) (gaps : list gap) : option string :=
  match gaps with
  | [] => None
  | g :: gs =>
      match first_missing (keys_of g) with
      | Some k => Some k
      | None => render keys_of gs
      end
  end.

(** [src/main.py], verify mode: [for gap in gaps[:5]] prints
    [gap['status']], [gap['full_reference_text'][:100]] and
    [gap['reference_source']]. *)
Definition main_summary_keys (g : gap) : list string :=
  ["status"; "full_reference_text"; "reference_source"].

Definition main_summary (gaps : list gap) : option string :=
  render main_summary_keys (firstn 5 gaps).

(** [src/app.py], tab 2: the expander title, then its body. *)
Definition app_keys (g : gap) : list string :=
  ["status"; "full_reference_text"; "status"; "full_reference_text";
   "reference_source"; "justification"; "sop_evidence"].

(** [src/app1.py], tab 2. *)
Definition app1_keys (g : gap) : list string :=
  ["status"; "atomic_requirement"; "full_reference_text"; "reference_source"; "severity";
   "status"] ++
  (if String.eqb (g_status g) STATUS_MISSING then ["justification"]
   else ["sop_evidence"; "justification"]).

(** [src/app2.py], tab 2: its dict subscripts ([gap.get] never raises and
    is left out).  The widget key [f"context_{...}"] of [st.text_area] is
    not a dict access and is not modelled. *)
Definition app2_keys (g : gap) : list string :=
  ["status"; "status"; "status"; "requirement_id"; "reference_requirement";
   "reference_requirement"; "reference_source"; "severity"] ++
  (if String.eqb (g_reference_context g) EmptyString then [] else ["reference_context"]) ++
  ["status"] ++
  (if String.eqb (g_status g) STATUS_MISSING then ["status"; "justification"]
   else ["status"; "sop_evidence"; "justification"]).

(** A subsequence: [subseq l l'] when [l] is [l'] with some elements left
    out. *)
Inductive subseq {A} : list A -> list A -> Prop :=
| subseq_nil : subseq [] []
| subseq_keep x l l' : subseq l l' -> subseq (x :: l) (x :: l')
| subseq_skip x l l' : subseq l l' -> subseq l (x :: l').

(** A gap copies these fields of the requirement it reports. *)
Definition gap_from (g : gap) (r : ref_req) : Prop :=
  g_requirement_id g = requirement_id r /\
  g_reference_requirement g = full_requirement_text r /\
  g_reference_context g = original_text r /\
  g_severity g = mandatory_level r /\
  g_reference_source g =
    (source_document r ++ " (Page " ++ py_str_int (page_number r) ++ ")")%string.

(** The triple [_llm_validation] returns once every attempt has raised. *)
Definition LLM_ERROR : string * jvalue * jvalue :=
  (STATUS_MISSING, JStr "LLM Error.", JStr NOT_FOUND).

(** A page whose [extract_text()] returned a string. *)
Definition is_text (e : extracted) : bool :=
  match e with Text _ => true | _ => false end.

(** Chunk [a] lies on an earlier page than chunk [b]. *)
Definition page_lt (a b : raw_chunk) : Prop := (rc_page a < rc_page b)%Z.

(** The adjudicator calls made for requirement [req]. *)
Definition calls_of (req : ref_req) (blk : list event) : Prop :=
  (List.length blk <= S max_retries)%nat /\
  Forall (fun ev => exists att, ev = EvAdjudicatorCall (full_requirement_text req) att
                                /\ att <= max_retries) blk.

(** * Properties *)

(** ** The decision step *)

Lemma bind_ok {A B} (m : M A) (k : A -> M B) log log' a :
  m log = (log', Ok a) -> bind m k log = k a log'.
Proof. intros H. unfold bind. rewrite H. reflexivity. Qed.

Lemma decide_routed adj req_text relevant :
  relevant <> [] -> PrimFloat.ltb (best_score_of relevant) LOW_THRESHOLD = false ->
  decide adj req_text relevant =
  (out <- _llm_validation adj req_text relevant ;;
   let '(status, justification, sop_evidence) := out in
   if String.eqb status STATUS_PRESENT
      && (negb (truthy sop_evidence) || is_not_found sop_evidence)
   then ret (STATUS_MISSING, JStr DOWNGRADE_JUSTIFICATION, JStr NOT_FOUND)
   else ret (status, justification, sop_evidence)).
Proof.
  intros Hne Hlt. unfold decide. rewrite Hlt.
  destruct relevant; [congruence|]. reflexivity.
Qed.

(** Every status [_llm_validation] returns is one of the three verdicts. *)
Lemma validate_status_range (v : jvalue) :
  validate_status v = STATUS_PRESENT \/ validate_status v = STATUS_PARTIAL
  \/ validate_status v = STATUS_MISSING.
Proof.
  destruct v as [| | |s| |]; simpl; auto.
  destruct (String.eqb s STATUS_PRESENT) eqn:E1; [left; apply String.eqb_eq; auto|].
  destruct (String.eqb s STATUS_PARTIAL) eqn:E2; [right; left; apply String.eqb_eq; auto|].
  destruct (String.eqb s STATUS_MISSING) eqn:E3; [right; right; apply String.eqb_eq; auto|].
  simpl. auto.
Qed.

Definition verdict (s : string) : Prop :=
  s = STATUS_PRESENT \/ s = STATUS_PARTIAL \/ s = STATUS_MISSING.

Lemma llm_loop_range adj rt cs attempt remaining log log' st j e :
  llm_loop adj rt cs attempt remaining log = (log', Ok (st, j, e)) -> verdict st.
Proof.
  unfold verdict.
  revert attempt log. induction remaining as [|rem IH]; intros attempt log H; simpl in H.
  - inversion H; subst. auto.
  - unfold bind, emit in H.
    destruct (llm_attempt (adj rt cs attempt)) as [out|] eqn:Ea.
    + unfold ret in H. inversion H; subst.
      destruct (adj rt cs attempt) as [m|t]; simpl in Ea; [discriminate|].
      destruct (py_find (clean_fences t) "{").
      * destruct (json_loads _) as [[| | | | |data]|]; try discriminate.
        inversion Ea; subst. apply validate_status_range.
      * inversion Ea; subst. auto.
    + destruct (Nat.ltb attempt max_retries).
      * eapply IH; eauto.
      * unfold ret in H. inversion H; subst. auto.
Qed.

Lemma llm_validation_range adj rt cs log log' st j e :
  _llm_validation adj rt cs log = (log', Ok (st, j, e)) -> verdict st.
Proof. apply llm_loop_range. Qed.

Lemma decide_range adj rt cs log log' st j e :
  decide adj rt cs log = (log', Ok (st, j, e)) -> verdict st.
Proof.
  unfold verdict, decide. intros H.
  destruct (match cs with [] => true | _ => false end || _)%bool.
  - inversion H; subst. auto.
  - unfold bind in H. destruct (_llm_validation adj rt cs log) as [log1 [[[st1 j1] e1]|ex]] eqn:E;
      [|discriminate].
    destruct (String.eqb st1 STATUS_PRESENT && _)%bool.
    + inversion H; subst. auto.
    + inversion H; subst. eapply llm_validation_range; eauto.
Qed.

Lemma llm_loop_log adj rt cs attempt remaining log :
  exists rest, fst (llm_loop adj rt cs attempt remaining log) = log ++ rest.
Proof.
  revert attempt log. induction remaining as [|rem IH]; intros attempt log; simpl.
  - exists []. rewrite app_nil_r. reflexivity.
  - unfold bind, emit.
    destruct (llm_attempt (adj rt cs attempt)).
    + exists [EvAdjudicatorCall rt attempt]. reflexivity.
    + destruct (Nat.ltb attempt max_retries).
      * destruct (IH (S attempt) (log ++ [EvAdjudicatorCall rt attempt])) as [rest Hr].
        rewrite Hr. exists (EvAdjudicatorCall rt attempt :: rest). rewrite <- app_assoc. reflexivity.
      * exists [EvAdjudicatorCall rt attempt]. reflexivity.
Qed.

Lemma llm_loop_S adj rt cs attempt rem log :
  llm_loop adj rt cs attempt (S rem) log =
  match llm_attempt (adj rt cs attempt) with
  | inl out => (log ++ [EvAdjudicatorCall rt attempt], Ok out)
  | inr _ =>
      if Nat.ltb attempt max_retries
      then llm_loop adj rt cs (S attempt) rem (log ++ [EvAdjudicatorCall rt attempt])
      else (log ++ [EvAdjudicatorCall rt attempt],
            Ok (STATUS_MISSING, JStr "LLM Error.", JStr NOT_FOUND))
  end.
Proof.
  simpl. unfold bind, emit. destruct (llm_attempt (adj rt cs attempt)); [reflexivity|].
  destruct (Nat.ltb attempt max_retries); reflexivity.
Qed.

Lemma llm_validation_first_call adj rt cs log :
  exists rest, fst (_llm_validation adj rt cs log) = log ++ EvAdjudicatorCall rt 0 :: rest.
Proof.
  unfold _llm_validation. rewrite llm_loop_S.
  destruct (llm_attempt (adj rt cs 0)).
  - exists []. reflexivity.
  - change (Nat.ltb 0 max_retries) with true. cbv iota.
    destruct (llm_loop_log adj rt cs 1 max_retries (log ++ [EvAdjudicatorCall rt 0])) as [rest Hr].
    rewrite Hr. exists rest. rewrite <- app_assoc. reflexivity.
Qed.

Lemma llm_validation_ok adj rt cs log :
  exists out, snd (_llm_validation adj rt cs log) = Ok out.
Proof.
  unfold _llm_validation. generalize 0. generalize (S max_retries).
  intros remaining. revert log. induction remaining as [|rem IH]; intros log attempt; simpl.
  - eexists; reflexivity.
  - unfold bind, emit. destruct (llm_attempt (adj rt cs attempt)).
    + eexists; reflexivity.
    + destruct (Nat.ltb attempt max_retries); [apply IH | eexists; reflexivity].
Qed.

Lemma record_gap_status req out g :
  record_gap req out = Some g -> g_status g = STATUS_PARTIAL \/ g_status g = STATUS_MISSING.
Proof.
  destruct out as [[st j] e]. unfold record_gap.
  destruct (String.eqb st STATUS_MISSING) eqn:E1; simpl.
  - intros H; inversion H; subst; simpl. right. apply String.eqb_eq. auto.
  - destruct (String.eqb st STATUS_PARTIAL) eqn:E2; [|discriminate].
    intros H; inversion H; subst; simpl. left. apply String.eqb_eq. auto.
Qed.

Lemma verify_loop_inv (P : gap -> Prop) adj v reqs gaps log log' gaps' :
  (forall req out g, record_gap req out = Some g -> P g) ->
  Forall P gaps ->
  verify_loop adj v reqs gaps log = (log', Ok gaps') -> Forall P gaps'.
Proof.
  intros HP. revert gaps log. induction reqs as [|req reqs IH]; intros gaps log Hg H; simpl in H.
  - inversion H; subst. auto.
  - unfold bind at 1, lift in H.
    destruct (_search_sop _ _ _ _) as [rel|ex]; [|discriminate].
    unfold bind in H.
    destruct (decide adj (full_requirement_text req) rel log) as [log1 [out|ex]];
      [|discriminate].
    eapply IH; [|exact H].
    unfold append_opt. destruct (record_gap req out) eqn:Er; auto.
    apply Forall_app; split; auto.
    constructor; [eapply HP; eauto | constructor].
Qed.

(** Concrete inputs used by the witnesses below. *)
Definition w_chunk : sop_item :=
  {| si_text := "Staff are trained."; si_page := 1; si_source := "sop.pdf";
     si_embedding := [1%float] |}.

Definition w_relevant (score : float) : list scored :=
  [{| sc_chunk := w_chunk; sc_score := score |}].

Definition w_adj (text_out : string) : adjudicator := fun _ _ _ => Replied text_out.

(** C1: an adjudicator verdict PRESENT whose evidence excerpt is empty or
    "Not Found" is recorded as MISSING with the downgrade justification, and
    a PRESENT verdict that survives the decision step always carries a
    truthy evidence value other than "Not Found". *)
Theorem present_without_evidence_downgraded adj req_text relevant log log' j e :
  relevant <> [] ->
  PrimFloat.ltb (best_score_of relevant) LOW_THRESHOLD = false ->
  _llm_validation adj req_text relevant log = (log', Ok (STATUS_PRESENT, j, e)) ->
  (e = JStr EmptyString \/ e = JStr NOT_FOUND) ->
  decide adj req_text relevant log =
    (log', Ok (STATUS_MISSING, JStr DOWNGRADE_JUSTIFICATION, JStr NOT_FOUND))
  /\ (forall log0 log1 j' e',
        decide adj req_text relevant log0 = (log1, Ok (STATUS_PRESENT, j', e')) ->
        truthy e' = true /\ is_not_found e' = false).
Proof.
  intros Hne Hlt Hllm He. split.
  - rewrite (decide_routed adj req_text relevant Hne Hlt).
    rewrite (bind_ok _ _ _ _ _ Hllm).
    destruct He as [-> | ->]; reflexivity.
  - intros log0 log1 j' e'. rewrite (decide_routed adj req_text relevant Hne Hlt).
    unfold bind. destruct (_llm_validation adj req_text relevant log0)
      as [l [[[st1 j1] e1]|ex]]; [|discriminate].
    destruct (String.eqb st1 STATUS_PRESENT && (negb (truthy e1) || is_not_found e1))%bool
      eqn:Ec; unfold ret; intros H; inversion H; subst.
    rewrite String.eqb_refl in Ec. simpl in Ec.
    destruct (truthy e'), (is_not_found e'); simpl in Ec; try discriminate; auto.
Qed.

Lemma present_without_evidence_downgraded_witness :
  decide (w_adj (dq "{'status': 'PRESENT', 'sop_evidence': 'Not Found'}"))
         "req" (w_relevant 0.9%float) [] =
    ([EvAdjudicatorCall "req" 0],
     Ok (STATUS_MISSING, JStr DOWNGRADE_JUSTIFICATION, JStr NOT_FOUND)).
Proof.
  refine (proj1 (present_without_evidence_downgraded
                   (w_adj (dq "{'status': 'PRESENT', 'sop_evidence': 'Not Found'}"))
                   "req" (w_relevant 0.9%float) [] [EvAdjudicatorCall "req" 0]
                   (JStr "LLM parsed.") (JStr NOT_FOUND) _ _ _ _)).
  - discriminate.
  - reflexivity.
  - reflexivity.
  - right; reflexivity.
Defined.

(** C3: every gap [verify_documents] returns has status PARTIAL or MISSING,
    and an adjudicator status outside PRESENT/PARTIAL/MISSING is coerced to
    MISSING (so [_llm_validation] only ever returns one of the three). *)
Theorem gaps_partial_or_missing adj v log log' gaps :
  verify_documents adj v log = (log', Ok gaps) ->
  Forall (fun g => g_status g = STATUS_PARTIAL \/ g_status g = STATUS_MISSING) gaps
  /\ (forall s, s <> STATUS_PRESENT -> s <> STATUS_PARTIAL -> s <> STATUS_MISSING ->
        validate_status (JStr s) = STATUS_MISSING)
  /\ (forall rt cs l0 l1 st j e,
        _llm_validation adj rt cs l0 = (l1, Ok (st, j, e)) -> verdict st).
Proof.
  intros H. split; [|split].
  - unfold verify_documents in H.
    destruct (reference_index v), (sop_store v); try discriminate.
    eapply verify_loop_inv; [exact record_gap_status | constructor | exact H].
  - intros s H1 H2 H3. simpl.
    apply String.eqb_neq in H1, H2, H3. rewrite H1, H2, H3. reflexivity.
  - intros. eapply llm_validation_range; eauto.
Qed.

Definition w_req (id : string) (emb : vec) : ref_req :=
  {| requirement_id := id; full_requirement_text := "Staff must be trained.";
     original_text := "Staff must be trained."; mandatory_level := "MUST";
     source_document := "ref.pdf"; page_number := 3; embedding := emb |}.

Definition w_verifier : verifier :=
  {| reference_index := [w_req "ref.pdf-3-1" [1%float]; w_req "ref.pdf-3-2" [0%float]];
     sop_store := [w_chunk]; sop_embeddings_matrix := [normalize [1%float]] |}.

Lemma gaps_partial_or_missing_witness :
  Forall (fun g => g_status g = STATUS_PARTIAL \/ g_status g = STATUS_MISSING)
    (match snd (verify_documents (w_adj (dq "{'status': 'PARTIAL', 'sop_evidence': 'x'}"))
                                 w_verifier []) with Ok g => g | Raise _ => [] end).
Proof.
  refine (proj1 (gaps_partial_or_missing (w_adj (dq "{'status': 'PARTIAL', 'sop_evidence': 'x'}"))
                   w_verifier [] [EvAdjudicatorCall "Staff must be trained." 0] _ _)).
  vm_compute. reflexivity.
Defined.

(** C4: when nothing was retrieved or the best score is strictly below the
    low threshold 0.35, the requirement is MISSING, the adjudicator is not
    called (the log is unchanged) and the justification quotes the best
    score; when the best score is at least 0.35 (0.35 included) the first
    thing that happens is an adjudicator call. *)
Theorem low_threshold_routing adj req_text relevant log :
  ((relevant = [] \/ PrimFloat.ltb (best_score_of relevant) LOW_THRESHOLD = true) ->
   decide adj req_text relevant log =
     (log, Ok (STATUS_MISSING,
               JStr (no_relevant_justification (best_score_of relevant)),
               JStr NOT_FOUND)))
  /\ (relevant <> [] -> PrimFloat.leb LOW_THRESHOLD (best_score_of relevant) = true ->
      exists rest,
        fst (decide adj req_text relevant log) = log ++ EvAdjudicatorCall req_text 0 :: rest).
Proof.
  split.
  - intros H. unfold decide.
    destruct H as [-> | H]; [reflexivity|]. rewrite H, orb_true_r. reflexivity.
  - intros Hne Hle.
    assert (Hlt : PrimFloat.ltb (best_score_of relevant) LOW_THRESHOLD = false).
    { destruct (PrimFloat.ltb (best_score_of relevant) LOW_THRESHOLD) eqn:E; auto.
      apply flt_fle_false in E. congruence. }
    rewrite (decide_routed adj req_text relevant Hne Hlt).
    destruct (llm_validation_first_call adj req_text relevant log) as [rest Hr].
    destruct (llm_validation_ok adj req_text relevant log) as [[[st j] e] Ho].
    exists rest. unfold bind.
    destruct (_llm_validation adj req_text relevant log) as [l r] eqn:E.
    simpl in Ho, Hr. subst r. subst l.
    destruct (String.eqb st STATUS_PRESENT && _)%bool; reflexivity.
Qed.

Lemma low_threshold_routing_witness :
  decide (w_adj "no json") "req" (w_relevant 0.3%float) [] =
    ([], Ok (STATUS_MISSING, JStr "No relevant SOP sections found (Max Similarity: 0.30).",
             JStr NOT_FOUND))
  /\ exists rest, fst (decide (w_adj "no json") "req" (w_relevant LOW_THRESHOLD) []) =
                  [] ++ EvAdjudicatorCall "req" 0 :: rest.
Proof.
  split.
  - exact (proj1 (low_threshold_routing (w_adj "no json") "req" (w_relevant 0.3%float) [])
                 (or_intror eq_refl)).
  - exact (proj2 (low_threshold_routing (w_adj "no json") "req" (w_relevant LOW_THRESHOLD) [])
                 ltac:(discriminate) eq_refl).
Defined.

(** C9: with the adjudicator's answer held fixed, raising the best score
    never turns a PRESENT verdict into anything else. *)
Theorem decision_monotone adj req_text r1 r2 log log1 j e :
  (forall l, _llm_validation adj req_text r1 l = _llm_validation adj req_text r2 l) ->
  PrimFloat.leb (best_score_of r1) (best_score_of r2) = true ->
  decide adj req_text r1 log = (log1, Ok (STATUS_PRESENT, j, e)) ->
  decide adj req_text r2 log = (log1, Ok (STATUS_PRESENT, j, e)).
Proof.
  intros Hsame Hle H1.
  assert (Hgate1 : (match r1 with [] => true | _ => false end
                    || PrimFloat.ltb (best_score_of r1) LOW_THRESHOLD)%bool = false).
  { destruct (match r1 with [] => true | _ => false end
              || PrimFloat.ltb (best_score_of r1) LOW_THRESHOLD)%bool eqn:E; auto.
    unfold decide in H1. rewrite E in H1. inversion H1. }
  apply orb_false_iff in Hgate1. destruct Hgate1 as [Hne1 Hlt1].
  assert (Hlt2 : PrimFloat.ltb (best_score_of r2) LOW_THRESHOLD = false).
  { destruct (PrimFloat.ltb (best_score_of r2) LOW_THRESHOLD) eqn:E; auto.
    rewrite (fle_flt_trans _ _ _ Hle E) in Hlt1. discriminate. }
  assert (Hne2 : r2 <> []).
  { intros ->. simpl in Hlt2. vm_compute in Hlt2. discriminate. }
  assert (Hne1' : r1 <> []) by (destruct r1; [discriminate | congruence]).
  rewrite (decide_routed adj req_text r1 Hne1' Hlt1) in H1.
  rewrite (decide_routed adj req_text r2 Hne2 Hlt2).
  unfold bind in *. rewrite <- Hsame. exact H1.
Qed.

Lemma decision_monotone_witness :
  decide (w_adj (dq "{'status': 'PRESENT', 'sop_evidence': 'Staff are trained.'}"))
         "req" (w_relevant 0.8%float) [] =
    ([EvAdjudicatorCall "req" 0],
     Ok (STATUS_PRESENT, JStr "LLM parsed.", JStr "Staff are trained.")).
Proof.
  apply (decision_monotone (w_adj (dq "{'status': 'PRESENT', 'sop_evidence': 'Staff are trained.'}"))
           "req" (w_relevant 0.5%float) (w_relevant 0.8%float)).
  - intros l. reflexivity.
  - reflexivity.
  - reflexivity.
Defined.

(** ** Determinism and order of the gap list *)

(** The gaps of the requirements [reqs], in order, when their decisions
    are [outs]. *)
Definition gaps_of (reqs : list ref_req) (outs : list (string * jvalue * jvalue)) : list gap :=
  flat_map (fun p => match record_gap (fst p) (snd p) with Some g => [g] | None => [] end)
           (combine reqs outs).

Section SameAdjudicator.
Variables adj1 adj2 : adjudicator.
Hypothesis same : forall t cs n, adj1 t cs n = adj2 t cs n.

Lemma llm_loop_same rt cs attempt remaining log :
    llm_loop adj1 rt cs attempt remaining log = llm_loop adj2 rt cs attempt remaining log.
  Proof.
    revert attempt log. induction remaining as [|rem IH]; intros attempt log; [reflexivity|].
    rewrite !llm_loop_S, same.
    destruct (llm_attempt (adj2 rt cs attempt)); [reflexivity|].
    destruct (Nat.ltb attempt max_retries); auto.
  Qed.

Lemma decide_same rt cs log : decide adj1 rt cs log = decide adj2 rt cs log.
  Proof.
    unfold decide. destruct (_ || _)%bool; [reflexivity|].
    unfold bind, _llm_validation. rewrite llm_loop_same. reflexivity.
  Qed.

Lemma verify_loop_same v reqs gaps log :
    verify_loop adj1 v reqs gaps log = verify_loop adj2 v reqs gaps log.
  Proof.
    revert gaps log. induction reqs as [|req reqs IH]; intros gaps log; [reflexivity|].
    simpl. unfold bind at 1 3, lift.
    destruct (_search_sop _ _ _ _); [|reflexivity].
    unfold bind. rewrite decide_same.
    destruct (decide adj2 _ _ log) as [l [out|ex]]; auto.
  Qed.
End SameAdjudicator.

Lemma verify_loop_order adj v reqs gaps log log' gaps' :
  verify_loop adj v reqs gaps log = (log', Ok gaps') ->
  exists outs, List.length outs = List.length reqs /\ gaps' = gaps ++ gaps_of reqs outs.
Proof.
  revert gaps log. induction reqs as [|req reqs IH]; intros gaps log H; simpl in H.
  - inversion H; subst. exists []. rewrite app_nil_r. auto.
  - unfold bind at 1, lift in H.
    destruct (_search_sop _ _ _ _) as [rel|ex]; [|discriminate].
    unfold bind in H.
    destruct (decide adj (full_requirement_text req) rel log) as [log1 [out|ex]];
      [|discriminate].
    destruct (IH _ _ H) as [outs [Hlen Hg]].
    exists (out :: outs). split; [simpl; auto|].
    rewrite Hg. unfold gaps_of. simpl. unfold append_opt.
    destruct (record_gap req out); simpl; [rewrite <- app_assoc|]; reflexivity.
Qed.

(** C8: two runs of [verify_documents] on the same state, with adjudicators
    that answer the same inputs alike, give the same result and the same
    call log; and the gap list is the gaps of the index requirements taken
    in index order. *)
Theorem verify_deterministic adj1 adj2 v :
  (forall t cs n, adj1 t cs n = adj2 t cs n) ->
  run (verify_documents adj1 v) = run (verify_documents adj2 v)
  /\ (forall log gaps, run (verify_documents adj1 v) = (log, Ok gaps) ->
      exists outs, List.length outs = List.length (reference_index v)
                   /\ gaps = gaps_of (reference_index v) outs).
Proof.
  intros Hsame. split.
  - unfold run, verify_documents.
    destruct (reference_index v), (sop_store v); try reflexivity.
    apply verify_loop_same; auto.
  - intros log gaps. unfold run, verify_documents.
    destruct (reference_index v) as [|r rs] eqn:Ei; [intros H; discriminate|].
    destruct (sop_store v); [intros H; discriminate|].
    intros H. rewrite <- Ei in H |- *.
    destruct (verify_loop_order _ _ _ _ _ _ _ H) as [outs [Hl Hg]].
    exists outs. split; auto.
Qed.

Lemma verify_deterministic_witness :
  run (verify_documents (w_adj (dq "{'status': 'PARTIAL'}")) w_verifier)
  = run (verify_documents (fun t cs n => w_adj (dq "{'status': 'PARTIAL'}") t cs n) w_verifier).
Proof.
  exact (proj1 (verify_deterministic (w_adj (dq "{'status': 'PARTIAL'}"))
                  (fun t cs n => w_adj (dq "{'status': 'PARTIAL'}") t cs n) w_verifier
                  (fun t cs n => eq_refl))).
Defined.

(** ** An SOP without usable embeddings *)

Lemma embed_requirements_length {A} (set : A -> vec -> A) encoded (items : list A) :
  List.length (embed_requirements set encoded items) = List.length items.
Proof.
  unfold embed_requirements. destruct encoded as [es|]; [|apply length_map].
  destruct (Nat.leb (List.length items) (List.length es)) eqn:E; [|apply length_map].
  rewrite length_map, length_combine. apply Nat.leb_le in E. lia.
Qed.

(** The gap recorded for a requirement nothing was retrieved for. *)
Definition missing_gap (req : ref_req) : gap :=
  {| g_requirement_id := requirement_id req;
     g_status := STATUS_MISSING;
     g_reference_requirement := full_requirement_text req;
     g_reference_context := original_text req;
     g_reference_source :=
       (source_document req ++ " (Page " ++ py_str_int (page_number req) ++ ")")%string;
     g_severity := mandatory_level req;
     g_sop_evidence := JStr NOT_FOUND;
     g_justification := JStr "No relevant SOP sections found (Max Similarity: 0.00)." |}.

Lemma verify_loop_empty_matrix adj v reqs gaps log :
  sop_embeddings_matrix v = [] ->
  verify_loop adj v reqs gaps log = (log, Ok (gaps ++ map missing_gap reqs)).
Proof.
  intros Hm. revert gaps. induction reqs as [|req reqs IH]; intros gaps.
  - simpl. rewrite app_nil_r. reflexivity.
  - simpl. unfold bind at 1, lift, _search_sop. rewrite Hm. simpl.
    unfold bind.
    change (decide adj (full_requirement_text req) [] log) with
      (log, @Ok (string * jvalue * jvalue)
              (STATUS_MISSING, JStr (no_relevant_justification 0%float), JStr NOT_FOUND)).
    cbv iota beta. rewrite IH. unfold append_opt.
    change (record_gap req (STATUS_MISSING, JStr (no_relevant_justification 0%float),
                            JStr NOT_FOUND)) with (Some (missing_gap req)).
    cbv iota. rewrite <- app_assoc. reflexivity.
Qed.

Lemma filter_all_empty (es : list vec) :
  Forall (fun e => e = []) es ->
  filter (fun e => match e with [] => false | _ => true end) es = [].
Proof. induction 1 as [|e es He _ IH]; simpl; [reflexivity|]. subst e. exact IH. Qed.

(** C10 (as amended): with a non-empty Reference Index and an SOP that
    yields chunks none of which got a non-empty embedding, verification
    calls no adjudicator and reports every requirement, in order, as a
    MISSING gap with evidence "Not Found" and a maximum similarity of 0.00. *)
Theorem no_sop_embeddings_all_missing adj v raw_chunks encoded log :
  reference_index v <> [] ->
  raw_chunks <> [] ->
  Forall (fun it => si_embedding it = [])
         (embed_requirements set_sop_embedding encoded (sop_items_of raw_chunks)) ->
  exists v',
    ingest_sop v raw_chunks encoded log = (log ++ [EvIngestSop], Ok v')
    /\ verify_documents adj v' (log ++ [EvIngestSop])
       = (log ++ [EvIngestSop], Ok (map missing_gap (reference_index v))).
Proof.
  intros Hidx Hraw Hemb.
  set (items := embed_requirements set_sop_embedding encoded (sop_items_of raw_chunks)) in *.
  exists {| reference_index := reference_index v; sop_store := items;
            sop_embeddings_matrix := [] |}.
  split.
  - unfold ingest_sop, bind, emit, ret. fold items.
    rewrite filter_all_empty; [reflexivity|].
    apply Forall_map. exact Hemb.
  - unfold verify_documents. simpl.
    destruct (reference_index v) as [|r rs] eqn:Ei; [congruence|].
    destruct items as [|it its] eqn:Eit.
    + exfalso. apply Hraw.
      pose proof (embed_requirements_length set_sop_embedding encoded (sop_items_of raw_chunks)) as L.
      fold items in L. rewrite Eit in L. unfold sop_items_of in L. rewrite length_map in L.
      destruct raw_chunks; [reflexivity | discriminate].
    + rewrite <- Ei. rewrite verify_loop_empty_matrix; reflexivity.
Qed.

Definition w_raw : raw_chunk := {| rc_text := "Staff are trained."; rc_page := 1; rc_source := "sop.pdf" |}.

Lemma no_sop_embeddings_all_missing_witness :
  exists v',
    ingest_sop w_verifier [w_raw] None [] = ([] ++ [EvIngestSop], Ok v')
    /\ verify_documents (w_adj "unused") v' ([] ++ [EvIngestSop])
       = ([] ++ [EvIngestSop], Ok (map missing_gap (reference_index w_verifier))).
Proof.
  apply no_sop_embeddings_all_missing.
  - discriminate.
  - discriminate.
  - repeat constructor.
Defined.

(** C10 as stated fails on an empty Reference Index: [verify_documents]
    raises instead of emitting zero gaps. *)
Lemma empty_index_raises :
  run (v <- ingest_sop fresh_verifier [w_raw] None ;; verify_documents (w_adj "unused") v)
  = ([EvIngestSop], Raise (ValueError "Reference Index or SOP Store not initialized.")).
Proof. reflexivity. Qed.

(** ** The precondition checks on the loaded index *)

(** An index entry from a DecompositionFailure record, embedded like any
    other. *)
Definition w_fail_req : ref_req :=
  {| requirement_id := "ref.pdf-3-FAIL";
     full_requirement_text := "FAILED TO NORMALIZE: Staff must be trained....";
     original_text := "Staff must be trained."; mandatory_level := "UNKNOWN";
     source_document := "ref.pdf"; page_number := 3; embedding := [1%float] |}.

Lemma w_fail_req_is_failure_record :
  requirement_id w_fail_req
  = ar_requirement_id (failure_record "Staff must be trained."
                          {| sm_source := "ref.pdf"; sm_page := 3 |}).
Proof. reflexivity. Qed.

(** C2 as stated fails: [load_reference_index] accepts an empty index and an
    index holding a DecompositionFailure record, and the [verify] command
    of [main.py] then ingests the SOP and calls the adjudicator on the
    failure record. *)
Lemma load_accepts_tainted_index :
  run (load_reference_index fresh_verifier (Some [])) = ([EvLoadIndex], Ok fresh_verifier)
  /\ run (load_reference_index fresh_verifier (Some [w_fail_req]))
     = ([EvLoadIndex], Ok {| reference_index := [w_fail_req]; sop_store := [];
                             sop_embeddings_matrix := [] |})
  /\ fst (run (main_verify (w_adj (dq "{'status': 'MISSING'}")) (Some [w_fail_req])
                           [w_raw] (Some [[1%float]])))
     = [EvLoadIndex; EvIngestSop;
        EvAdjudicatorCall "FAILED TO NORMALIZE: Staff must be trained...." 0].
Proof. split; [|split]; vm_compute; reflexivity. Qed.

(** C2 (as amended): the verification tab of [app2.py] stops right after
    loading, before any SOP ingestion or adjudicator call, when the index is
    empty or some [requirement_id] contains "FAIL" (every DecompositionFailure
    record's id ends in "-FAIL"). *)
Theorem app2_rejects_tainted_index adj idx raw_chunks encoded :
  (idx = [] \/ exists r, In r idx /\ py_in "FAIL" (requirement_id r) = true) ->
  run (app2_verify adj (Some idx) raw_chunks encoded) = ([EvLoadIndex], Raise StopException).
Proof.
  intros H. destruct H as [-> | [r [Hin Hf]]]; [reflexivity|].
  destruct idx as [|r0 rs]; [destruct Hin|].
  assert (E : existsb (fun r => py_in "FAIL" (requirement_id r)) (r0 :: rs) = true).
  { apply existsb_exists. exists r. auto. }
  cbv beta iota zeta delta [run app2_verify load_reference_index bind emit ret
                            reference_index].
  rewrite E. reflexivity.
Qed.

Lemma app2_rejects_tainted_index_witness :
  run (app2_verify (w_adj "unused") (Some [w_req "ref.pdf-3-1" [1%float]; w_fail_req])
                   [w_raw] (Some [[1%float]]))
  = ([EvLoadIndex], Raise StopException).
Proof.
  apply app2_rejects_tainted_index. right. exists w_fail_req. split.
  - right; left; reflexivity.
  - reflexivity.
Defined.

(** ** Empty-vector sentinels in retrieval *)

(** C6 fails on the code: a Reference Index entry whose embedding is the
    empty sentinel (what [embed_requirements] stores when the embedder
    raises during indexing) makes [np.dot] raise in [_search_sop] as soon as
    the SOP has embedded chunks, and the whole run aborts. *)
Lemma empty_requirement_embedding_crashes :
  run (main_verify (w_adj "unused") (Some [w_req "ref.pdf-3-1" []]) [w_raw] (Some [[1%float]]))
  = ([EvLoadIndex; EvIngestSop], Raise (ValueError "shapes not aligned")).
Proof. vm_compute. reflexivity. Qed.

Lemma indexer_failure_gives_empty_embedding :
  map embedding
    (embed_requirements
       (fun r e => {| requirement_id := requirement_id r;
                      full_requirement_text := full_requirement_text r;
                      original_text := original_text r; mandatory_level := mandatory_level r;
                      source_document := source_document r; page_number := page_number r;
                      embedding := e |})
       None [w_req "ref.pdf-3-1" [1%float]])
  = [[]].
Proof. reflexivity. Qed.

(** ** Decomposition failures in the Normalizer *)

(** C5 as stated fails: a reply the JSON reader rejects, among them the
    bare NORMALIZATION_FAILED marker the prompt asks for, gives no record at
    all for the passage. *)
Lemma normalization_failed_marker_dropped :
  normalize_text (fun _ _ => Replied "NORMALIZATION_FAILED") "Staff must be trained."
                 {| sm_source := "ref.pdf"; sm_page := 3 |} = []
  /\ normalize_text (fun _ _ => Replied "I cannot split this passage.") "Staff must be trained."
                 {| sm_source := "ref.pdf"; sm_page := 3 |} = [].
Proof. split; vm_compute; reflexivity. Qed.

(** C5 (as amended): exhausting the three attempts, a parsed reply that is
    not iterable, or an element that is not a JSON object gives exactly one
    DecompositionFailure record; a reply that cannot be parsed as JSON gives
    the empty list. *)
Theorem normalize_text_failures svc text_chunk meta :
  ((forall n, n < max_retries -> exists m, svc text_chunk n = Raised m) ->
   normalize_text svc text_chunk meta = [failure_record text_chunk meta])
  /\ (forall response_text, _invoke_bedrock svc text_chunk = Some response_text ->
      json_loads (array_candidate response_text) = None ->
      normalize_text svc text_chunk meta = [])
  /\ (forall response_text, _invoke_bedrock svc text_chunk = Some response_text ->
      (py_iter (_parse_response response_text) = None
       \/ exists items, py_iter (_parse_response response_text) = Some items
                        /\ Exists (fun x => match x with JObj _ => False | _ => True end) items) ->
      normalize_text svc text_chunk meta = [failure_record text_chunk meta]).
Proof.
  split; [|split].
  - intros Hraise. unfold normalize_text.
    assert (Hn : _invoke_bedrock svc text_chunk = None).
    { assert (L0 : 0 < max_retries) by (unfold max_retries; lia).
      assert (L1 : 1 < max_retries) by (unfold max_retries; lia).
      assert (L2 : 2 < max_retries) by (unfold max_retries; lia).
      destruct (Hraise 0 L0) as [m0 E0], (Hraise 1 L1) as [m1 E1], (Hraise 2 L2) as [m2 E2].
      unfold _invoke_bedrock, max_retries. simpl. rewrite E0, E1, E2. reflexivity. }
    rewrite Hn. reflexivity.
  - intros r Hinv Hjson. unfold normalize_text. rewrite Hinv.
    unfold _parse_response. rewrite Hjson. reflexivity.
  - intros r Hinv Hbad. unfold normalize_text. rewrite Hinv.
    destruct Hbad as [-> | [items [Hit Hex]]]; [reflexivity|].
    rewrite Hit.
    assert (Hen : forall i, enrich text_chunk meta i items = None).
    { clear Hit. induction Hex as [x l Hx | x l _ IH]; intros i; simpl.
      - destruct x; try reflexivity. destruct Hx.
      - destruct x; try reflexivity. rewrite IH. reflexivity. }
    rewrite Hen. reflexivity.
Qed.

Lemma normalize_text_failures_witness :
  normalize_text (fun _ _ => Raised "ThrottlingException") "Staff must be trained."
                 {| sm_source := "ref.pdf"; sm_page := 3 |}
  = [failure_record "Staff must be trained." {| sm_source := "ref.pdf"; sm_page := 3 |}]
  /\ normalize_text (fun _ _ => Replied (dq "['a', 'b']")) "Staff must be trained."
                 {| sm_source := "ref.pdf"; sm_page := 3 |}
  = [failure_record "Staff must be trained." {| sm_source := "ref.pdf"; sm_page := 3 |}]
  /\ normalize_text (fun _ _ => Replied "NORMALIZATION_FAILED") "Staff must be trained."
                 {| sm_source := "ref.pdf"; sm_page := 3 |} = [].
Proof.
  split; [|split].
  - apply (proj1 (normalize_text_failures (fun _ _ => Raised "ThrottlingException")
                   "Staff must be trained." {| sm_source := "ref.pdf"; sm_page := 3 |})).
    intros n _. exists "ThrottlingException". reflexivity.
  - apply (proj2 (proj2 (normalize_text_failures (fun _ _ => Replied (dq "['a', 'b']"))
                   "Staff must be trained." {| sm_source := "ref.pdf"; sm_page := 3 |}))
             (dq "['a', 'b']") eq_refl).
    right. exists [JStr "a"; JStr "b"]. split; [vm_compute; reflexivity|].
    left. exact I.
  - apply (proj1 (proj2 (normalize_text_failures (fun _ _ => Replied "NORMALIZATION_FAILED")
                   "Staff must be trained." {| sm_source := "ref.pdf"; sm_page := 3 |}))
             "NORMALIZATION_FAILED").
    + reflexivity.
    + vm_compute. reflexivity.
Defined.

(** ** Retrieval order ([_search_sop])

    The insertion sort that models [np.argsort] is stable: equal scores keep
    their index order in the ascending result.  [_search_sop] then takes the
    last [top_k] entries and reverses them, so among equal scores the larger
    store index comes first. *)



Lemma ins_desc_perm (scores : list float) (i : nat) (rl : list nat) :
  Permutation (ins_desc scores i rl) (i :: rl).
Proof.
  induction rl as [|j rl IH]; simpl; [reflexivity|].
  destruct (np_lt _ _); [|reflexivity].
  eapply perm_trans; [apply perm_skip, IH | apply perm_swap].
Qed.

Section Argsort.

Variable scores : list float.
Hypothesis scores_not_nan :
  forall i, (score_at scores i <=? score_at scores i)%float = true.





End Argsort.

Lemma top_of_argsort {A} (k : nat) (xs : list A) :
  rev (last_n k (rev xs)) = firstn k xs.
Proof. unfold last_n. rewrite length_rev, (firstn_skipn_rev k xs). reflexivity. Qed.

Lemma dot_rows_length (M : list vec) (q : vec) (scores : list float) :
  dot_rows M q = Some scores -> List.length scores = List.length M.
Proof.
  revert scores; induction M as [|r M IH]; intros scores H; simpl in H.
  - injection H as <-. reflexivity.
  - destruct (dot r q), (dot_rows M q) as [ss|] eqn:E; try discriminate.
    injection H as <-. simpl. f_equal. apply IH. reflexivity.
Qed.

Lemma lookup_all_in {A} (xs : list A) (idx : list nat) :
  Forall (fun i => i < List.length xs) idx ->
  exists ys, lookup_all xs idx = Some ys /\ map Some ys = map (nth_error xs) idx.
Proof.
  induction 1 as [|i idx Hi _ IH]; simpl.
  - exists []. split; reflexivity.
  - destruct IH as (ys & E & Hm).
    destruct (nth_error xs i) as [x|] eqn:En.
    + rewrite E. exists (x :: ys). simpl. rewrite Hm. split; reflexivity.
    + apply nth_error_None in En. lia.
Qed.






(** * Further properties of the code *)

(** ** The gap report copies the Reference Index *)

Lemma record_gap_from req out g : record_gap req out = Some g -> gap_from g req.
Proof.
  destruct out as [[st j] e]. unfold record_gap.
  destruct (_ || _)%bool; [|discriminate].
  intros H; inversion H; subst. unfold gap_from; simpl. repeat split.
Qed.

Lemma subseq_length {A} (l l' : list A) : subseq l l' -> (List.length l <= List.length l')%nat.
Proof. induction 1; simpl; lia. Qed.

Lemma gaps_of_cons r reqs o outs :
  gaps_of (r :: reqs) (o :: outs)
  = match record_gap r o with Some g => [g] | None => [] end ++ gaps_of reqs outs.
Proof. reflexivity. Qed.

Lemma gaps_of_subseq (reqs : list ref_req) outs :
  List.length outs = List.length reqs ->
  exists sub, subseq sub reqs /\ Forall2 gap_from (gaps_of reqs outs) sub.
Proof.
  revert outs; induction reqs as [|r reqs IH]; intros [|o outs] H; simpl in H;
    try discriminate.
  - exists []. split; constructor.
  - destruct (IH outs) as (sub & Hs & Hf); [lia|].
    rewrite gaps_of_cons. destruct (record_gap r o) as [g|] eqn:E.
    + exists (r :: sub). split; [constructor; exact Hs|].
      simpl. constructor; [eapply record_gap_from; eauto | exact Hf].
    + exists sub. split; [constructor; exact Hs | exact Hf].
Qed.

(** The gaps of a completed [verify_documents] run are the reports of a
    subsequence of the Reference Index, in index order: each gap carries the
    id, text, context, severity and formatted source of its requirement.  In
    particular there are never more gaps than requirements (the
    [passed_count] of [app2.py] is never negative). *)
Theorem verify_gaps_from_index adj v log log' gaps :
  verify_documents adj v log = (log', Ok gaps) ->
  exists sub, subseq sub (reference_index v) /\ Forall2 gap_from gaps sub
              /\ (List.length gaps <= List.length (reference_index v))%nat.
Proof.
  unfold verify_documents.
  destruct (reference_index v) as [|r rs] eqn:Ei; [intros H; discriminate H|].
  destruct (sop_store v); [intros H; discriminate H|].
  intros H. rewrite <- Ei in H |- *.
  destruct (verify_loop_order _ _ _ _ _ _ _ H) as [outs [Hl Hg]].
  simpl in Hg. subst gaps.
  destruct (gaps_of_subseq _ _ Hl) as (sub & Hs & Hf).
  exists sub. split; [exact Hs|]. split; [exact Hf|].
  rewrite (Forall2_length Hf). apply subseq_length. exact Hs.
Qed.

Definition w_report_adj : adjudicator :=
  w_adj (dq "{'status': 'PARTIAL', 'sop_evidence': 'x'}").

Definition w_report_gaps : list gap :=
  match snd (verify_documents w_report_adj w_verifier []) with
  | Ok gaps => gaps
  | Raise _ => []
  end.

Lemma verify_gaps_from_index_witness :
  verify_documents w_report_adj w_verifier []
  = (fst (verify_documents w_report_adj w_verifier []), Ok w_report_gaps) /\
  w_report_gaps <> [] /\
  exists sub, subseq sub (reference_index w_verifier) /\ Forall2 gap_from w_report_gaps sub
              /\ (List.length w_report_gaps <= List.length (reference_index w_verifier))%nat.
Proof.
  assert (E : verify_documents w_report_adj w_verifier []
              = (fst (verify_documents w_report_adj w_verifier []), Ok w_report_gaps))
    by (vm_compute; reflexivity).
  split; [exact E|]. split; [vm_compute; discriminate|].
  exact (verify_gaps_from_index _ _ _ _ _ E).
Defined.

(** ** What a verification run costs in adjudicator calls *)

Lemma llm_loop_calls adj rt cs attempt remaining log :
  exists calls, fst (llm_loop adj rt cs attempt remaining log) = log ++ calls
    /\ (List.length calls <= remaining)%nat
    /\ Forall (fun ev => exists att, ev = EvAdjudicatorCall rt att
                                     /\ attempt <= att /\ att < attempt + remaining) calls.
Proof.
  revert attempt log. induction remaining as [|rem IH]; intros attempt log.
  - exists []. simpl. rewrite app_nil_r. auto.
  - rewrite llm_loop_S. destruct (llm_attempt (adj rt cs attempt)).
    + exists [EvAdjudicatorCall rt attempt]. simpl. split; [reflexivity|].
      split; [lia|]. constructor; [|constructor]. exists attempt. split; [reflexivity|lia].
    + destruct (Nat.ltb attempt max_retries).
      * destruct (IH (S attempt) (log ++ [EvAdjudicatorCall rt attempt])) as (c & Hc & Hl & Hf).
        exists (EvAdjudicatorCall rt attempt :: c). rewrite Hc, <- app_assoc.
        split; [reflexivity|]. split; [simpl; lia|].
        constructor; [exists attempt; split; [reflexivity|lia]|].
        eapply Forall_impl; [|exact Hf]. intros ev (att & -> & H1 & H2).
        exists att. split; [reflexivity|lia].
      * exists [EvAdjudicatorCall rt attempt]. simpl. split; [reflexivity|].
        split; [lia|]. constructor; [|constructor]. exists attempt. split; [reflexivity|lia].
Qed.

Lemma decide_calls adj rt cs log :
  exists calls, fst (decide adj rt cs log) = log ++ calls
    /\ (List.length calls <= S max_retries)%nat
    /\ Forall (fun ev => exists att, ev = EvAdjudicatorCall rt att /\ att <= max_retries) calls.
Proof.
  unfold decide. cbv zeta. destruct (_ || _)%bool.
  - exists []. unfold ret. simpl. rewrite app_nil_r. split; [reflexivity|]. split; [lia|constructor].
  - destruct (llm_loop_calls adj rt cs 0 (S max_retries) log) as (c & Hc & Hl & Hf).
    exists c. split; [|split; [exact Hl|]].
    + unfold bind, ret. change (llm_loop adj rt cs 0 (S max_retries) log)
        with (_llm_validation adj rt cs log) in Hc.
      destruct (_llm_validation adj rt cs log) as [l1 [[[st j] e]|ex]]; simpl in Hc |- *;
        [destruct (_ && _)%bool|]; exact Hc.
    + eapply Forall_impl; [|exact Hf]. intros ev (att & -> & H1 & H2).
      exists att. split; [reflexivity|]. unfold max_retries in *. lia.
Qed.

Lemma verify_loop_blocks adj v reqs gaps log :
  exists blocks, fst (verify_loop adj v reqs gaps log) = log ++ List.concat blocks
    /\ (List.length blocks <= List.length reqs)%nat
    /\ Forall2 calls_of (firstn (List.length blocks) reqs) blocks.
Proof.
  revert gaps log. induction reqs as [|req reqs IH]; intros gaps log.
  - exists []. simpl. unfold ret. simpl. rewrite app_nil_r.
    split; [reflexivity|]. split; [lia|constructor].
  - simpl. unfold bind at 1, lift.
    destruct (_search_sop _ _ _ _) as [rel|ex].
    2: { exists []. simpl. rewrite app_nil_r. split; [reflexivity|]. split; [lia|constructor]. }
    unfold bind.
    destruct (decide_calls adj (full_requirement_text req) rel log) as (c1 & Hc1 & Hl1 & Hf1).
    assert (Hb1 : calls_of req c1) by (split; assumption).
    destruct (decide adj (full_requirement_text req) rel log) as [l1 [out|ex]];
      simpl in Hc1; subst l1.
    + destruct (IH (append_opt gaps (record_gap req out)) (log ++ c1)) as (bs & Hc2 & Hl2 & Hf2).
      exists (c1 :: bs). rewrite Hc2. simpl. rewrite app_assoc. split; [reflexivity|].
      split; [lia|]. constructor; [exact Hb1 | exact Hf2].
    + exists [c1]. simpl. rewrite app_nil_r. split; [reflexivity|]. split; [lia|].
      constructor; [exact Hb1 | constructor].
Qed.

(** Whatever its outcome, the adjudicator calls of a [verify_documents] run
    come in consecutive blocks, one per requirement it reached, in index
    order: the block of the [i]-th requirement has at most
    [max_retries + 1 = 4] calls, all with that requirement's text and on
    attempts 0 to 3.  The run has no other effect on the log. *)
Theorem verify_call_budget adj v log log' r :
  verify_documents adj v log = (log', r) ->
  exists blocks, log' = log ++ List.concat blocks
    /\ (List.length blocks <= List.length (reference_index v))%nat
    /\ Forall2 calls_of (firstn (List.length blocks) (reference_index v)) blocks.
Proof.
  unfold verify_documents.
  destruct (reference_index v) as [|q qs] eqn:Ei;
    [intros H; inversion H; subst; exists []; rewrite app_nil_r;
     split; [reflexivity | split; [simpl; lia | constructor]]|].
  destruct (sop_store v);
    [intros H; inversion H; subst; exists []; rewrite app_nil_r;
     split; [reflexivity | split; [simpl; lia | constructor]]|].
  intros H. rewrite <- Ei in H |- *.
  destruct (verify_loop_blocks adj v (reference_index v) [] log) as (bs & Hc & Hl & Hf).
  rewrite H in Hc. simpl in Hc. exists bs. auto.
Qed.

Definition w_budget_adj : adjudicator := fun _ _ _ => Raised "ThrottlingException".

Lemma verify_call_budget_witness :
  exists blocks,
    fst (verify_documents w_budget_adj w_verifier []) = [] ++ List.concat blocks
    /\ (List.length blocks <= List.length (reference_index w_verifier))%nat
    /\ Forall2 calls_of (firstn (List.length blocks) (reference_index w_verifier)) blocks.
Proof.
  apply (verify_call_budget w_budget_adj w_verifier []
           (fst (verify_documents w_budget_adj w_verifier []))
           (snd (verify_documents w_budget_adj w_verifier []))).
  vm_compute. reflexivity.
Defined.

(** ** The retry loop of [_llm_validation] *)

Lemma llm_loop_outcome adj rt cs a r log :
  a + S r = S max_retries ->
  exists n, a <= n <= max_retries
    /\ (forall k, a <= k < n -> llm_attempt (adj rt cs k) = inr tt)
    /\ llm_loop adj rt cs a (S r) log
       = (log ++ map (EvAdjudicatorCall rt) (seq a (S n - a)),
          match llm_attempt (adj rt cs n) with inl out => Ok out | inr _ => Ok LLM_ERROR end)
    /\ (n < max_retries -> exists out, llm_attempt (adj rt cs n) = inl out).
Proof.
  revert a log. induction r as [|r IH]; intros a log Ha.
  - exists a. split; [unfold max_retries in *; lia|]. split; [intros k Hk; lia|].
    rewrite llm_loop_S. replace (S a - a) with 1 by lia. simpl.
    destruct (llm_attempt (adj rt cs a)) as [out|u] eqn:E.
    + split; [reflexivity|]. intros _. exists out. reflexivity.
    + replace (Nat.ltb a max_retries) with false
        by (symmetry; apply Nat.ltb_ge; unfold max_retries in *; lia).
      split; [reflexivity|]. intros Hlt. unfold max_retries in *. lia.
  - rewrite llm_loop_S. destruct (llm_attempt (adj rt cs a)) as [out|u] eqn:E.
    + exists a. split; [unfold max_retries in *; lia|]. split; [intros k Hk; lia|].
      replace (S a - a) with 1 by lia. simpl. rewrite E.
      split; [reflexivity|]. intros _. exists out. reflexivity.
    + replace (Nat.ltb a max_retries) with true
        by (symmetry; apply Nat.ltb_lt; unfold max_retries in *; lia).
      destruct (IH (S a) (log ++ [EvAdjudicatorCall rt a])) as (n & Hn & Hk & Hr & Hlast);
        [lia|].
      exists n. split; [lia|]. split.
      * intros k Hk'. destruct (Nat.eq_dec k a) as [->|Hne]; [destruct u; exact E|].
        apply Hk. lia.
      * split; [|exact Hlast]. rewrite Hr. rewrite <- app_assoc.
        replace (S n - a) with (S (S n - S a)) by lia. reflexivity.
Qed.

(** [_llm_validation] calls the adjudicator on attempts [0 .. n] for some
    [n <= 3]: every attempt before [n] raised (an exception from the service
    or the JSON decoding), and the result is what attempt [n] returns, or
    ["LLM Error."] when [n = 3] raised as well.  Attempt [n < 3] is never a
    failure, and the final ["LLM Max Retries."] return is never reached. *)
Theorem llm_validation_outcome adj rt cs log :
  exists n, n <= max_retries
    /\ (forall k, k < n -> llm_attempt (adj rt cs k) = inr tt)
    /\ _llm_validation adj rt cs log
       = (log ++ map (EvAdjudicatorCall rt) (seq 0 (S n)),
          match llm_attempt (adj rt cs n) with inl out => Ok out | inr _ => Ok LLM_ERROR end)
    /\ (n < max_retries -> exists out, llm_attempt (adj rt cs n) = inl out).
Proof.
  destruct (llm_loop_outcome adj rt cs 0 max_retries log) as (n & Hn & Hk & Hr & Hl);
    [reflexivity|].
  exists n. split; [lia|]. split; [intros k Hk'; apply Hk; lia|].
  split; [|exact Hl]. unfold _llm_validation. rewrite Hr, Nat.sub_0_r. reflexivity.
Qed.

(** ** Shapes in [_search_sop] *)

Lemma fold_size_ge (M : list vec) (acc : nat) :
  (acc <= fold_left (fun n r => n + List.length r)%nat M acc)%nat.
Proof. revert acc; induction M as [|r M IH]; intros acc; simpl; [lia|]. specialize (IH (acc + List.length r)). lia. Qed.

Lemma dot_rows_aligned (M : list vec) (q : vec) (d : nat) :
  Forall (fun r => List.length r = d) M -> List.length q = d ->
  exists scores, dot_rows M q = Some scores.
Proof.
  intros HM Hq. induction HM as [|r M Hr _ IH]; simpl; [eexists; reflexivity|].
  destruct IH as [ss Hss]. rewrite Hss. unfold dot.
  rewrite Hr, Hq, Nat.eqb_refl. eexists; reflexivity.
Qed.

Lemma dot_rows_misaligned (M : list vec) (q : vec) (d : nat) :
  Forall (fun r => List.length r = d) M -> M <> [] -> List.length q <> d ->
  dot_rows M q = None.
Proof.
  intros HM Hne Hq. destruct M as [|r M]; [congruence|].
  pose proof (Forall_inv HM) as Hr; simpl in Hr. simpl. unfold dot.
  rewrite Hr. destruct (Nat.eqb_spec d (List.length q)); [congruence|]. reflexivity.
Qed.

Lemma argsort_rev_perm_fold (scores : list float) (len m : nat) (acc : list nat) :
  Permutation acc (seq 0 m) ->
  Permutation (fold_left (fun acc i => ins_desc scores i acc) (seq m len) acc)
              (seq 0 (m + len)).
Proof.
  revert m acc; induction len as [|len IH]; intros m acc Hp; simpl.
  - rewrite Nat.add_0_r. exact Hp.
  - replace (m + S len) with (S m + len) by lia. apply IH.
    eapply perm_trans; [apply ins_desc_perm|]. rewrite seq_S. simpl.
    eapply perm_trans; [apply perm_skip, Hp | apply Permutation_cons_append].
Qed.

(** A numpy matrix of [n > 0] rows of width [d > 0] and a query: with a query
    of width [d] (and a store at least as long as the matrix),
    [_search_sop] returns [min(3, n)] results; with a query of any other
    width it raises [ValueError] (shapes not aligned). *)
Theorem search_sop_shapes (M : list vec) (store : list sop_item) (q : vec) (d : nat) :
  Forall (fun r => List.length r = d) M -> M <> [] -> d <> 0%nat ->
  (List.length q = d -> (List.length M <= List.length store)%nat ->
   exists out, _search_sop M store q TOP_K = Ok out
               /\ List.length out = Nat.min TOP_K (List.length M))
  /\ (List.length q <> d -> _search_sop M store q TOP_K = Raise (ValueError "shapes not aligned")).
Proof.
  intros HM Hne Hd.
  assert (Hsz : Nat.eqb (matrix_size M) 0 = false).
  { apply Nat.eqb_neq. destruct M as [|r M']; [congruence|].
    pose proof (Forall_inv HM) as Hr; simpl in Hr. 
    assert (H1 : (List.length r <= matrix_size (r :: M'))%nat)
      by exact (fold_size_ge M' (0 + List.length r)).
    lia. }
  split.
  - intros Hq Hst. unfold _search_sop. rewrite Hsz. cbv zeta.
    destruct (dot_rows_aligned M (normalize q) d HM) as [scores Hs];
      [unfold normalize; rewrite length_map; exact Hq|].
    rewrite Hs. pose proof (dot_rows_length _ _ _ Hs) as Hlen.
    pose proof (argsort_rev_perm_fold scores (List.length scores) 0 [] (perm_nil _)) as Hp.
    change (Permutation (argsort_rev scores) (seq 0 (List.length scores))) in Hp.
    unfold argsort. rewrite top_of_argsort.
    assert (Hin : Forall (fun i => i < List.length store) (firstn TOP_K (argsort_rev scores))).
    { apply Forall_forall. intros i Hi.
      assert (Hi' : In i (argsort_rev scores)).
      { rewrite <- (firstn_skipn TOP_K (argsort_rev scores)). apply in_or_app. left. exact Hi. }
      apply (Permutation_in _ Hp), in_seq in Hi'. lia. }
    destruct (lookup_all_in store _ Hin) as (chunks & Hlk & Hmap). rewrite Hlk.
    eexists. split; [reflexivity|].
    assert (Hcl : List.length chunks = List.length (firstn TOP_K (argsort_rev scores))).
    { rewrite <- (length_map Some chunks), Hmap, length_map. reflexivity. }
    rewrite length_map, length_combine, length_map, Hcl, Nat.min_id, length_firstn.
    rewrite (Permutation_length Hp), length_seq, Hlen. reflexivity.
  - intros Hq. unfold _search_sop. rewrite Hsz. cbv zeta.
    rewrite (dot_rows_misaligned M (normalize q) d HM Hne);
      [reflexivity | unfold normalize; rewrite length_map; exact Hq].
Qed.

Lemma search_sop_shapes_witness :
  (exists out, _search_sop [[1.0%float; 0.0%float]; [0.0%float; 1.0%float]] [w_chunk; w_chunk]
                 [1.0%float; 1.0%float] TOP_K = Ok out /\ List.length out = 2%nat)
  /\ _search_sop [[1.0%float; 0.0%float]; [0.0%float; 1.0%float]] [w_chunk; w_chunk]
       [1.0%float] TOP_K = Raise (ValueError "shapes not aligned").
Proof.
  assert (HM : Forall (fun r => List.length r = 2%nat)
                 [[1.0%float; 0.0%float]; [0.0%float; 1.0%float]]) by repeat constructor.
  split.
  - apply (proj1 (search_sop_shapes _ [w_chunk; w_chunk] [1.0%float; 1.0%float] 2 HM
                    ltac:(discriminate) ltac:(discriminate))); reflexivity.
  - apply (proj2 (search_sop_shapes _ [w_chunk; w_chunk] [1.0%float] 2 HM
                    ltac:(discriminate) ltac:(discriminate))). discriminate.
Defined.

(** ** Retries of the decomposition call *)

Lemma invoke_loop_some svc t rc rem r :
  invoke_loop svc t rc rem = Some r <->
  exists n, rc <= n < rc + rem /\ svc t n = Replied r
            /\ forall m, rc <= m < n -> exists e, svc t m = Raised e.
Proof.
  revert rc. induction rem as [|rem IH]; intros rc; simpl.
  - split; [discriminate | intros (n & Hn & _); lia].
  - destruct (svc t rc) as [e|t'] eqn:E.
    + rewrite IH. split.
      * intros (n & Hn & Hr & Hm). exists n. split; [lia|]. split; [exact Hr|].
        intros m Hm'. destruct (Nat.eq_dec m rc) as [->|Hne]; [exists e; exact E|].
        apply Hm. lia.
      * intros (n & Hn & Hr & Hm). exists n.
        destruct (Nat.eq_dec n rc) as [->|Hne]; [congruence|].
        split; [lia|]. split; [exact Hr|]. intros m Hm'. apply Hm. lia.
    + split.
      * intros H. injection H as <-. exists rc. split; [lia|]. split; [exact E|].
        intros m Hm; lia.
      * intros (n & Hn & Hr & Hm). destruct (Nat.eq_dec n rc) as [->|Hne]; [congruence|].
        destruct (Hm rc) as [e He]; [lia|]. congruence.
Qed.

Lemma invoke_loop_none svc t rc rem :
  invoke_loop svc t rc rem = None <->
  forall n, rc <= n < rc + rem -> exists e, svc t n = Raised e.
Proof.
  revert rc. induction rem as [|rem IH]; intros rc; simpl.
  - split; [intros _ n Hn; lia | reflexivity].
  - destruct (svc t rc) as [e|t'] eqn:E.
    + rewrite IH. split.
      * intros H n Hn. destruct (Nat.eq_dec n rc) as [->|Hne]; [exists e; exact E|].
        apply H. lia.
      * intros H n Hn. apply H. lia.
    + split; [discriminate|]. intros H. destruct (H rc) as [e He]; [lia|]. congruence.
Qed.

(** [_invoke_bedrock] returns the reply of the first of its three attempts
    that does not raise; it raises ["Max retries exceeded"] exactly when all
    three attempts raise. *)
Theorem invoke_bedrock_retries svc t :
  (forall r, _invoke_bedrock svc t = Some r <->
     exists n, n < max_retries /\ svc t n = Replied r
               /\ forall m, m < n -> exists e, svc t m = Raised e) /\
  (_invoke_bedrock svc t = None <->
     forall n, n < max_retries -> exists e, svc t n = Raised e).
Proof.
  split.
  - intros r. unfold _invoke_bedrock. rewrite invoke_loop_some.
    split; intros (n & Hn & Hr & Hm); exists n; (split; [lia|]); split; auto;
      intros m Hm'; apply Hm; lia.
  - unfold _invoke_bedrock. rewrite invoke_loop_none.
    split; intros H n Hn; apply H; lia.
Qed.

(** ** The records [normalize_text] returns *)

Definition from_passage (t : string) (meta : source_meta) (r : atomic_req) : Prop :=
  ar_original_text r = t /\ ar_source_document r = sm_source meta
  /\ ar_page_number r = sm_page meta.

Lemma enrich_shape t meta i reqs out :
  enrich t meta i reqs = Some out ->
  Forall (from_passage t meta) out /\
  map ar_requirement_id out
  = map (fun k => (req_id_prefix meta ++ py_str_int (Z.of_nat k))%string)
        (seq (S i) (List.length out)).
Proof.
  revert i out. induction reqs as [|x reqs IH]; intros i out H; simpl in H.
  - injection H as <-. split; [constructor | reflexivity].
  - destruct x as [| | | | |m]; try discriminate H.
    destruct (enrich t meta (S i) reqs) as [rest|] eqn:E; [|discriminate H].
    injection H as <-. destruct (IH _ _ E) as [Hf Hm].
    split; [constructor; [repeat split | exact Hf]|].
    simpl. f_equal. exact Hm.
Qed.

Lemma normalize_text_from_passage svc t meta :
  Forall (from_passage t meta) (normalize_text svc t meta).
Proof.
  assert (Hf : Forall (from_passage t meta) [failure_record t meta])
    by (constructor; [repeat split | constructor]).
  unfold normalize_text.
  destruct (_invoke_bedrock svc t); [|exact Hf].
  destruct (py_iter _); [|exact Hf].
  destruct (enrich t meta 0 l) eqn:E; [|exact Hf].
  exact (proj1 (enrich_shape _ _ _ _ _ E)).
Qed.

(** Every record [normalize_text] returns keeps the passage as its
    [original_text] and the source and page of [source_meta]; the result is
    either the single DecompositionFailure record, or records whose ids are
    [<source>-<page>-1], [<source>-<page>-2], ... in order. *)
Theorem normalize_text_shape svc t meta :
  Forall (from_passage t meta) (normalize_text svc t meta) /\
  (normalize_text svc t meta = [failure_record t meta] \/
   map ar_requirement_id (normalize_text svc t meta)
   = map (fun k => (req_id_prefix meta ++ py_str_int (Z.of_nat k))%string)
         (seq 1 (List.length (normalize_text svc t meta)))).
Proof.
  split; [apply normalize_text_from_passage|].
  unfold normalize_text.
  destruct (_invoke_bedrock svc t); [|left; reflexivity].
  destruct (py_iter _); [|left; reflexivity].
  destruct (enrich t meta 0 l) eqn:E; [|left; reflexivity].
  right. exact (proj2 (enrich_shape _ _ _ _ _ E)).
Qed.

(** ** Pages of the PDF parsers *)

Lemma std_pages_in src i0 pages c :
  In c (std_pages src i0 pages) <->
  exists i s, nth_error pages i = Some (Text s) /\ s <> EmptyString
    /\ (forall j, j < i -> nth_error pages j <> Some ExtractError)
    /\ c = page_chunk src (i0 + i) (py_strip s).
Proof.
  revert i0. induction pages as [|p ps IH]; intros i0.
  - simpl. split; [contradiction|]. intros (i & s & H & _). destruct i; discriminate H.
  - assert (Hskip : (exists i s, nth_error ps i = Some (Text s) /\ s <> EmptyString
                      /\ (forall j, j < i -> nth_error ps j <> Some ExtractError)
                      /\ c = page_chunk src (S i0 + i) (py_strip s)) ->
                    p <> ExtractError ->
                    exists i s, nth_error (p :: ps) i = Some (Text s) /\ s <> EmptyString
                      /\ (forall j, j < i -> nth_error (p :: ps) j <> Some ExtractError)
                      /\ c = page_chunk src (i0 + i) (py_strip s)).
    { intros (i & s & H1 & H2 & H3 & H4) Hp. exists (S i), s.
      split; [exact H1|]. split; [exact H2|]. split.
      - intros [|j] Hj; simpl; [congruence|]. apply H3. lia.
      - rewrite H4. f_equal. lia. }
    assert (Hback : (exists i s, nth_error (p :: ps) i = Some (Text s) /\ s <> EmptyString
                      /\ (forall j, j < i -> nth_error (p :: ps) j <> Some ExtractError)
                      /\ c = page_chunk src (i0 + i) (py_strip s)) ->
                    (exists s, p = Text s /\ s <> EmptyString
                               /\ c = page_chunk src i0 (py_strip s)) \/
                    (p <> ExtractError /\
                     exists i s, nth_error ps i = Some (Text s) /\ s <> EmptyString
                      /\ (forall j, j < i -> nth_error ps j <> Some ExtractError)
                      /\ c = page_chunk src (S i0 + i) (py_strip s))).
    { intros ([|i] & s & H1 & H2 & H3 & H4); simpl in H1.
      - left. exists s. split; [congruence|]. split; [exact H2|]. rewrite H4. f_equal. lia.
      - right. split; [intros ->; apply (H3 0); [lia | reflexivity]|].
        exists i, s. split; [exact H1|]. split; [exact H2|]. split.
        + intros j Hj. apply (H3 (S j)). lia.
        + rewrite H4. f_equal. lia. }
    destruct p as [s| |]; simpl.
    + destruct (String.eqb_spec s EmptyString) as [Es|Es].
      * rewrite IH. split; [intros H; apply Hskip; [exact H | discriminate]|].
        intros H. destruct (Hback H) as [(s' & Hs' & Hne & _)|[_ H']]; [congruence | exact H'].
      * simpl. rewrite IH. split.
        -- intros [<-|H]; [|apply Hskip; [exact H | discriminate]].
           exists 0, s. split; [reflexivity|]. split; [exact Es|].
           split; [intros j Hj; lia|]. f_equal. lia.
        -- intros H. destruct (Hback H) as [(s' & Hs' & Hne & Hc)|[_ H']]; [|right; exact H'].
           left. injection Hs' as <-. symmetry. exact Hc.
    + rewrite IH. split; [intros H; apply Hskip; [exact H | discriminate]|].
      intros H. destruct (Hback H) as [(s' & Hs' & _)|[_ H']]; [discriminate Hs' | exact H'].
    + split; [contradiction|]. intros H.
      destruct (Hback H) as [(s' & Hs' & _)|[Hp _]]; [discriminate Hs' | congruence].
Qed.

Lemma std_pages_sorted src i0 pages : StronglySorted page_lt (std_pages src i0 pages).
Proof.
  revert i0. induction pages as [|p ps IH]; intros i0; simpl; [constructor|].
  destruct p as [s| |]; [|apply IH|constructor].
  destruct (String.eqb s EmptyString); [apply IH|].
  constructor; [apply IH|]. apply Forall_forall. intros c Hc.
  apply std_pages_in in Hc as (i & s' & _ & _ & _ & ->).
  unfold page_lt, page_chunk. simpl. lia.
Qed.

(** [_parse_pdf_standard] keeps, in page order, one chunk per page whose
    extracted text is a non-empty string, with that text stripped and the
    page's 1-based number, up to the first page whose extraction raises;
    pages from that one on are lost.  A whitespace-only page gives a chunk
    whose text is empty. *)
Theorem parse_pdf_standard_pages pages src :
  (forall c, In c (_parse_pdf_standard (Some pages) src) <->
     exists i s, nth_error pages i = Some (Text s) /\ s <> EmptyString
       /\ (forall j, j < i -> nth_error pages j <> Some ExtractError)
       /\ c = page_chunk src i (py_strip s))
  /\ StronglySorted page_lt (_parse_pdf_standard (Some pages) src).
Proof.
  split; [|apply std_pages_sorted].
  intros c. unfold _parse_pdf_standard. rewrite std_pages_in. reflexivity.
Qed.

Lemma bedrock_pages_in cl src i0 pages out c :
  bedrock_pages cl src i0 pages = Some out ->
  (In c out <->
   exists i s, nth_error pages i = Some (Text s) /\ py_strip s <> EmptyString
     /\ c = page_chunk src (i0 + i) (_invoke_bedrock_cleanup cl s)).
Proof.
  revert i0 out. induction pages as [|p ps IH]; intros i0 out H; simpl in H.
  - injection H as <-. simpl. split; [contradiction|].
    intros (i & s & H & _). destruct i; discriminate H.
  - destruct p as [s| |]; try discriminate H.
    destruct (String.eqb_spec (py_strip s) EmptyString) as [Es|Es].
    + rewrite (IH _ _ H). split.
      * intros (i & s' & H1 & H2 & H3). exists (S i), s'.
        split; [exact H1|]. split; [exact H2|]. rewrite H3. f_equal. lia.
      * intros ([|i] & s' & H1 & H2 & H3); simpl in H1; [injection H1 as <-; congruence|].
        exists i, s'. split; [exact H1|]. split; [exact H2|]. rewrite H3. f_equal. lia.
    + destruct (bedrock_pages cl src (S i0) ps) as [rest|] eqn:E; [|discriminate H].
      injection H as <-. simpl. rewrite (IH _ _ E). split.
      * intros [<-|(i & s' & H1 & H2 & H3)].
        -- exists 0, s. split; [reflexivity|]. split; [exact Es|]. f_equal. lia.
        -- exists (S i), s'. split; [exact H1|]. split; [exact H2|]. rewrite H3. f_equal. lia.
      * intros ([|i] & s' & H1 & H2 & H3); simpl in H1.
        -- left. injection H1 as <-. rewrite H3. f_equal. lia.
        -- right. exists i, s'. split; [exact H1|]. split; [exact H2|]. rewrite H3. f_equal. lia.
Qed.

Lemma bedrock_pages_none cl src i pages :
  forallb is_text pages = false -> bedrock_pages cl src i pages = None.
Proof.
  revert i. induction pages as [|p ps IH]; intros i; simpl; [discriminate|].
  destruct p as [s| |]; simpl; intros H; try reflexivity.
  destruct (String.eqb (py_strip s) EmptyString); [apply IH; exact H|].
  rewrite (IH _ H). reflexivity.
Qed.

Lemma bedrock_pages_some cl src i pages :
  forallb is_text pages = true -> exists out, bedrock_pages cl src i pages = Some out.
Proof.
  revert i. induction pages as [|p ps IH]; intros i; simpl; [eexists; reflexivity|].
  destruct p as [s| |]; simpl; intros H; try discriminate H.
  destruct (IH (S i) H) as [rest Hr].
  destruct (String.eqb (py_strip s) EmptyString); [exists rest; exact Hr|].
  rewrite Hr. eexists; reflexivity.
Qed.

Lemma bedrock_pages_sorted cl src i0 pages out :
  bedrock_pages cl src i0 pages = Some out -> StronglySorted page_lt out.
Proof.
  revert i0 out. induction pages as [|p ps IH]; intros i0 out H; simpl in H.
  - injection H as <-. constructor.
  - destruct p as [s| |]; try discriminate H.
    destruct (String.eqb (py_strip s) EmptyString); [exact (IH _ _ H)|].
    destruct (bedrock_pages cl src (S i0) ps) as [rest|] eqn:E; [|discriminate H].
    injection H as <-. constructor; [exact (IH _ _ E)|].
    apply Forall_forall. intros c Hc.
    apply (bedrock_pages_in _ _ _ _ _ c E) in Hc as (i & s' & _ & _ & ->).
    unfold page_lt, page_chunk. simpl. lia.
Qed.

(** When every page yields a string, [_parse_pdf_bedrock] returns, in page
    order, one chunk per page that is not blank, holding the cleanup
    service's text for it (or the raw text when the call fails).  When some
    page yields [None] or raises, the whole file is parsed again by
    [_parse_pdf_standard] instead, with no cleanup at all. *)
Theorem parse_pdf_bedrock_pages cl pages src :
  (forallb is_text pages = true ->
     (forall c, In c (_parse_pdf_bedrock cl (Some pages) src) <->
        exists i s, nth_error pages i = Some (Text s) /\ py_strip s <> EmptyString
          /\ c = page_chunk src i (_invoke_bedrock_cleanup cl s))
     /\ StronglySorted page_lt (_parse_pdf_bedrock cl (Some pages) src))
  /\ (forallb is_text pages = false ->
      _parse_pdf_bedrock cl (Some pages) src = _parse_pdf_standard (Some pages) src).
Proof.
  split.
  - intros H. destruct (bedrock_pages_some cl src 0 pages H) as [out Hout].
    unfold _parse_pdf_bedrock. rewrite Hout. split; [|exact (bedrock_pages_sorted _ _ _ _ _ Hout)].
    intros c. exact (bedrock_pages_in _ _ _ _ _ c Hout).
  - intros H. unfold _parse_pdf_bedrock. rewrite bedrock_pages_none by exact H. reflexivity.
Qed.

Definition w_cleaner : cleaner := fun _ => Some (CbOutputs " Staff are trained. ").

Definition w_pages_text : list extracted := [Text " raw page one "; Text "  "; Text "raw page three"].

Definition w_pages_hole : list extracted := [Text "raw page one"; NoText].

Lemma parse_pdf_bedrock_pages_witness :
  ((forall c, In c (_parse_pdf_bedrock w_cleaner (Some w_pages_text) "ref.pdf") <->
      exists i s, nth_error w_pages_text i = Some (Text s) /\ py_strip s <> EmptyString
        /\ c = page_chunk "ref.pdf" i (_invoke_bedrock_cleanup w_cleaner s))
   /\ StronglySorted page_lt (_parse_pdf_bedrock w_cleaner (Some w_pages_text) "ref.pdf"))
  /\ _parse_pdf_bedrock w_cleaner (Some w_pages_hole) "ref.pdf"
     = _parse_pdf_standard (Some w_pages_hole) "ref.pdf".
Proof.
  split.
  - apply (proj1 (parse_pdf_bedrock_pages w_cleaner w_pages_text "ref.pdf")). reflexivity.
  - apply (proj2 (parse_pdf_bedrock_pages w_cleaner w_pages_hole "ref.pdf")). reflexivity.
Defined.

(** ** Provenance of the saved Reference Index *)

Lemma map_fst_combine {A B} (l1 : list A) (l2 : list B) :
  (List.length l1 <= List.length l2)%nat -> map fst (combine l1 l2) = l1.
Proof.
  revert l2; induction l1 as [|x l1 IH]; intros l2 H; [reflexivity|].
  destruct l2 as [|y l2]; simpl in H; [lia|].
  simpl. rewrite IH by lia. reflexivity.
Qed.

Lemma map_snd_combine {A B} (l1 : list A) (l2 : list B) :
  map snd (combine l1 l2) = firstn (List.length l1) l2.
Proof.
  revert l2; induction l1 as [|x l1 IH]; intros [|y l2]; simpl; try reflexivity.
  f_equal. apply IH.
Qed.

Lemma embed_entries_reqs enc (items : list index_entry) :
  map ie_req (embed_requirements set_entry_embedding enc items) = map ie_req items.
Proof.
  unfold embed_requirements. destruct enc as [es|].
  - destruct (Nat.leb_spec (List.length items) (List.length es)) as [Hl|Hl];
      rewrite map_map; simpl; [|reflexivity].
    rewrite <- (map_map fst ie_req), map_fst_combine by exact Hl. reflexivity.
  - rewrite map_map. reflexivity.
Qed.

Lemma embed_entries_embedding enc (items : list index_entry) e :
  In e (embed_requirements set_entry_embedding enc items) ->
  ie_embedding e = [] \/ exists es, enc = Some es /\ In (ie_embedding e) es.
Proof.
  unfold embed_requirements. destruct enc as [es|].
  - destruct (Nat.leb (List.length items) (List.length es));
      intros H; apply in_map_iff in H as (x & <- & Hx); simpl; [|left; reflexivity].
    right. exists es. split; [reflexivity|]. destruct x as [it v].
    exact (in_combine_r _ _ _ _ Hx).
  - intros H. apply in_map_iff in H as (x & <- & Hx). left. reflexivity.
Qed.

(** Every entry of a saved Reference Index is a record [normalize_text]
    returned for a chunk parsed from one of the files: it keeps that chunk's
    text as [original_text] and its source and page; its embedding is empty
    or one of the vectors the encoder returned for that file. *)
Theorem process_and_index_provenance svc files idx :
  process_and_index svc files = Some idx ->
  idx <> [] /\
  Forall (fun e => exists f chunks c,
            In f files /\ rf_chunks f = Some chunks /\ In c chunks
            /\ In (ie_req e) (normalize_text svc (rc_text c) (meta_of c))
            /\ from_passage (rc_text c) (meta_of c) (ie_req e)
            /\ (ie_embedding e = [] \/ exists es, rf_encoded f = Some es /\ In (ie_embedding e) es))
         idx.
Proof.
  unfold process_and_index.
  destruct (flat_map (process_file svc) files) as [|e0 es0] eqn:E; [discriminate|].
  intros H. injection H as <-. split; [discriminate|]. rewrite <- E.
  apply Forall_forall. intros e He.
  apply in_flat_map in He as (f & Hf & He). unfold process_file in He.
  destruct (rf_chunks f) as [chunks|] eqn:Ec; [|contradiction].
  assert (Hr : In (ie_req e) (flat_map (fun c => normalize_text svc (rc_text c) (meta_of c)) chunks)).
  { apply (in_map ie_req) in He. rewrite embed_entries_reqs, map_map, map_id in He. exact He. }
  apply in_flat_map in Hr as (c & Hc & Hrc).
  exists f, chunks, c. split; [exact Hf|]. split; [exact Ec|]. split; [exact Hc|].
  split; [exact Hrc|]. split.
  - exact (proj1 (Forall_forall _ _) (normalize_text_from_passage svc (rc_text c) (meta_of c)) _ Hrc).
  - exact (embed_entries_embedding _ _ _ He).
Qed.

Definition w_page : raw_chunk := page_chunk "ref.pdf" 2 "Staff shall be trained.".

Definition w_decomposer : decomposer :=
  fun _ _ => Replied (dq "[{'requirement_text': 'Staff shall be trained.', 'severity': 'MUST'}]").

Definition w_ref_file : ref_file := {| rf_chunks := Some [w_page]; rf_encoded := Some [[1%float]] |}.

Definition w_saved_index : list index_entry :=
  match process_and_index w_decomposer [w_ref_file] with Some idx => idx | None => [] end.

Lemma process_and_index_provenance_witness :
  process_and_index w_decomposer [w_ref_file] = Some w_saved_index /\
  w_saved_index <> [] /\
  Forall (fun e => exists f chunks c,
            In f [w_ref_file] /\ rf_chunks f = Some chunks /\ In c chunks
            /\ In (ie_req e) (normalize_text w_decomposer (rc_text c) (meta_of c))
            /\ from_passage (rc_text c) (meta_of c) (ie_req e)
            /\ (ie_embedding e = [] \/ exists es, rf_encoded f = Some es /\ In (ie_embedding e) es))
         w_saved_index.
Proof.
  assert (E : process_and_index w_decomposer [w_ref_file] = Some w_saved_index)
    by (vm_compute; reflexivity).
  split; [exact E|]. exact (process_and_index_provenance _ _ _ E).
Defined.

(** A chunk whose decomposition fails on all three attempts is still
    indexed: the saved Reference Index exists and holds the chunk's
    DecompositionFailure record ([<source>-<page>-FAIL], text
    ["FAILED TO NORMALIZE: ..."]) as a requirement. *)
Theorem decomposition_failure_indexed svc files f chunks c :
  In f files -> rf_chunks f = Some chunks -> In c chunks ->
  (forall n, n < max_retries -> exists e, svc (rc_text c) n = Raised e) ->
  exists idx, process_and_index svc files = Some idx
    /\ exists e, In e idx /\ ie_req e = failure_record (rc_text c) (meta_of c).
Proof.
  intros Hf Ec Hc Hraise.
  assert (Hn : normalize_text svc (rc_text c) (meta_of c) = [failure_record (rc_text c) (meta_of c)]).
  { unfold normalize_text, _invoke_bedrock.
    rewrite (proj2 (invoke_loop_none svc (rc_text c) 0 max_retries)); [reflexivity|].
    intros n Hn. apply Hraise. lia. }
  assert (Hin : In (failure_record (rc_text c) (meta_of c)) (map ie_req (process_file svc f))).
  { unfold process_file. rewrite Ec, embed_entries_reqs, map_map, map_id.
    apply in_flat_map. exists c. split; [exact Hc|]. rewrite Hn. left. reflexivity. }
  apply in_map_iff in Hin as (e & He & Hine).
  assert (Hall : In e (flat_map (process_file svc) files)) by (apply in_flat_map; eauto).
  unfold process_and_index.
  destruct (flat_map (process_file svc) files) as [|e0 rest]; [contradiction|].
  eexists. split; [reflexivity|]. exists e. split; [exact Hall | exact He].
Qed.

Definition w_throttled : decomposer := fun _ _ => Raised "ThrottlingException".

Lemma decomposition_failure_indexed_witness :
  exists idx, process_and_index w_throttled [w_ref_file] = Some idx
    /\ exists e, In e idx /\ ie_req e = failure_record (rc_text w_page) (meta_of w_page).
Proof.
  apply (decomposition_failure_indexed w_throttled [w_ref_file] w_ref_file [w_page] w_page).
  - left. reflexivity.
  - reflexivity.
  - left. reflexivity.
  - intros n _. exists "ThrottlingException". reflexivity.
Defined.

(** ** The SOP store and its matrix *)

Lemma embed_requirements_enough {A} (set_embedding : A -> vec -> A) es items :
  (List.length items <= List.length es)%nat ->
  embed_requirements set_embedding (Some es) items
  = map (fun p => set_embedding (fst p) (snd p)) (combine items es).
Proof.
  intros H. unfold embed_requirements.
  destruct (Nat.leb_spec (List.length items) (List.length es)); [reflexivity | lia].
Qed.

Lemma filter_nonempty (es : list vec) :
  Forall (fun e => e <> []) es ->
  filter (fun e => match e with [] => false | _ => true end) es = es.
Proof.
  induction 1 as [|e es He _ IH]; simpl; [reflexivity|].
  destruct e; [congruence|]. rewrite IH. reflexivity.
Qed.

(** When the encoder returns a non-empty vector for each chunk,
    [ingest_sop] keeps every chunk, in order, with its text, page and source
    and the vector of the same position, and row [i] of the search matrix is
    the normalised embedding of store item [i]. *)
Theorem ingest_sop_aligned v raw (es : list vec) log :
  (List.length raw <= List.length es)%nat ->
  Forall (fun e => e <> []) (firstn (List.length raw) es) ->
  exists store,
    ingest_sop v raw (Some es) log
    = (log ++ [EvIngestSop],
       Ok {| reference_index := reference_index v; sop_store := store;
             sop_embeddings_matrix := map normalize (map si_embedding store) |})
    /\ map si_embedding store = firstn (List.length raw) es
    /\ map (fun it => (si_text it, si_page it, si_source it)) store
       = map (fun c => (rc_text c, rc_page c, rc_source c)) raw.
Proof.
  intros Hl Hne.
  set (items := sop_items_of raw).
  assert (Hli : List.length items = List.length raw)
    by (unfold items, sop_items_of; apply length_map).
  set (store := map (fun p => set_sop_embedding (fst p) (snd p)) (combine items es)).
  assert (Hemb : map si_embedding store = firstn (List.length raw) es).
  { unfold store. rewrite map_map. simpl. rewrite map_snd_combine, Hli. reflexivity. }
  exists store. split; [|split; [exact Hemb|]].
  - unfold ingest_sop, bind, emit, ret. cbv zeta. fold items.
    rewrite (embed_requirements_enough set_sop_embedding es items) by lia.
    fold store.
    rewrite Hemb, filter_nonempty by exact Hne.
    destruct (firstn (List.length raw) es); reflexivity.
  - unfold store. rewrite map_map. simpl.
    rewrite <- (map_map fst (fun it => (si_text it, si_page it, si_source it))).
    rewrite map_fst_combine by lia. unfold items, sop_items_of. rewrite map_map. reflexivity.
Qed.

Definition w_raw2 : raw_chunk :=
  {| rc_text := "Records are kept."; rc_page := 2; rc_source := "sop.pdf" |}.

Lemma ingest_sop_aligned_witness :
  exists store,
    ingest_sop w_verifier [w_raw; w_raw2] (Some [[1%float; 0%float]; [0%float; 2%float]]) []
    = ([] ++ [EvIngestSop],
       Ok {| reference_index := reference_index w_verifier; sop_store := store;
             sop_embeddings_matrix := map normalize (map si_embedding store) |})
    /\ map si_embedding store
       = firstn (List.length [w_raw; w_raw2]) [[1%float; 0%float]; [0%float; 2%float]]
    /\ map (fun it => (si_text it, si_page it, si_source it)) store
       = map (fun c => (rc_text c, rc_page c, rc_source c)) [w_raw; w_raw2].
Proof.
  apply ingest_sop_aligned.
  - simpl. lia.
  - repeat constructor; discriminate.
Defined.

(** ** Reading the gap report *)

Lemma find_app {A} (f : A -> bool) (l1 l2 : list A) :
  find f (l1 ++ l2) = match find f l1 with Some x => Some x | None => find f l2 end.
Proof. induction l1 as [|x l1 IH]; simpl; [reflexivity|]. destruct (f x); auto. Qed.

(** Gap dicts have no [full_reference_text] and no [atomic_requirement]
    key: as soon as there is one gap, the verify summary of [main.py] and the
    gap tab of [app.py] raise [KeyError('full_reference_text')] on the first
    gap, and the gap tab of [app1.py] raises
    [KeyError('atomic_requirement')]. *)
Theorem front_ends_key_errors gaps :
  main_summary gaps = match gaps with [] => None | _ :: _ => Some "full_reference_text" end
  /\ render app_keys gaps = match gaps with [] => None | _ :: _ => Some "full_reference_text" end
  /\ render app1_keys gaps = match gaps with [] => None | _ :: _ => Some "atomic_requirement" end.
Proof.
  assert (H1 : forall g, first_missing (app1_keys g) = Some "atomic_requirement").
  { intros g. unfold app1_keys, first_missing. rewrite find_app. reflexivity. }
  split; [destruct gaps; reflexivity|].
  split; [destruct gaps; reflexivity|].
  destruct gaps as [|g gs]; [reflexivity|].
  change (render app1_keys (g :: gs))
    with (match first_missing (app1_keys g) with
          | Some k => Some k | None => render app1_keys gs end).
  rewrite H1. reflexivity.
Qed.

(** The gap tab of [app2.py] subscripts only keys the gap dicts have, in
    both branches of its [MISSING] test and whether or not the gap has a
    reference context: it raises no [KeyError], whatever the gaps. *)
Theorem app2_gap_keys_present gaps : render app2_keys gaps = None.
Proof.
  assert (H2 : forall g, first_missing (app2_keys g) = None).
  { intros g. unfold app2_keys, first_missing.
    destruct (String.eqb (g_reference_context g) EmptyString),
             (String.eqb (g_status g) STATUS_MISSING); reflexivity. }
  induction gaps as [|g gs IH]; [reflexivity|].
  change (render app2_keys (g :: gs))
    with (match first_missing (app2_keys g) with
          | Some k => Some k | None => render app2_keys gs end).
  rewrite H2. exact IH.
Qed.

(** ** The verify mode of [main.py] at its edges *)

(** In verify mode, [main.py] returns [None] right after a failed index
    load, before the SOP is ingested; and when the SOP yields no chunk at all
    (an unreadable PDF gives [[]]), the load and the ingestion happen and
    [verify_documents] raises [ValueError], which nothing in [main] catches. *)
Theorem main_verify_edges adj idx raw enc log :
  main_verify adj None raw enc log = (log ++ [EvLoadIndex], Ok None)
  /\ main_verify adj (Some idx) [] enc log
     = (log ++ [EvLoadIndex; EvIngestSop],
        Raise (ValueError "Reference Index or SOP Store not initialized.")).
Proof.
  split; [reflexivity|].
  transitivity ((log ++ [EvLoadIndex]) ++ [EvIngestSop],
                Raise (A := option (list gap))
                  (ValueError "Reference Index or SOP Store not initialized."));
    [destruct idx, enc; reflexivity | rewrite <- app_assoc; reflexivity].
Qed.

(** ** [_search_sop] over an ingested store *)

Lemma search_sop_no_index_error (M : list vec) (store : list sop_item) (q : vec) (k : nat) :
  (List.length M <= List.length store)%nat -> _search_sop M store q k <> Raise IndexError.
Proof.
  intros Hst. unfold _search_sop.
  destruct (Nat.eqb (matrix_size M) 0); [discriminate|]. cbv zeta.
  destruct (dot_rows M (normalize q)) as [scores|] eqn:Hs; [|discriminate].
  pose proof (dot_rows_length _ _ _ Hs) as Hlen.
  pose proof (argsort_rev_perm_fold scores (List.length scores) 0 [] (perm_nil _)) as Hp.
  change (Permutation (argsort_rev scores) (seq 0 (List.length scores))) in Hp.
  unfold argsort. rewrite top_of_argsort.
  assert (Hin : Forall (fun i => i < List.length store) (firstn k (argsort_rev scores))).
  { apply Forall_forall. intros i Hi.
    assert (Hi' : In i (argsort_rev scores)).
    { rewrite <- (firstn_skipn k (argsort_rev scores)). apply in_or_app. left. exact Hi. }
    apply (Permutation_in _ Hp), in_seq in Hi'. lia. }
  destruct (lookup_all_in store _ Hin) as (chunks & Hlk & _). rewrite Hlk. discriminate.
Qed.

Lemma filter_length_le {A} (f : A -> bool) (l : list A) :
  (List.length (filter f l) <= List.length l)%nat.
Proof. induction l as [|x l IH]; simpl; [lia|]. destruct (f x); simpl; lia. Qed.

(** After [ingest_sop], the search matrix never has more rows than the SOP
    store has items, so [_search_sop] on the ingested verifier never raises
    [IndexError], whatever the query and [top_k]. *)
Theorem ingest_search_no_index_error v raw enc log log' v' (q : vec) (k : nat) :
  ingest_sop v raw enc log = (log', Ok v') ->
  _search_sop (sop_embeddings_matrix v') (sop_store v') q k <> Raise IndexError.
Proof.
  unfold ingest_sop, bind, emit, ret. cbv zeta. intros H. injection H as _ <-. simpl.
  apply search_sop_no_index_error.
  set (items := embed_requirements set_sop_embedding enc (sop_items_of raw)).
  pose proof (filter_length_le (fun e : list float => match e with [] => false | _ => true end)
                (map si_embedding items)) as Hl.
  rewrite length_map in Hl. revert Hl.
  destruct (filter (fun e : list float => match e with [] => false | _ => true end)
                   (map si_embedding items)) as [|e es'];
    intros Hl; cbv iota; [simpl; lia|].
  rewrite length_map. exact Hl.
Qed.

Lemma ingest_search_no_index_error_witness :
  _search_sop (sop_embeddings_matrix
                 (match snd (ingest_sop w_verifier [w_raw; w_raw2]
                               (Some [[1%float; 0%float]; []]) []) with
                  | Ok v' => v' | Raise _ => w_verifier end))
              (sop_store
                 (match snd (ingest_sop w_verifier [w_raw; w_raw2]
                               (Some [[1%float; 0%float]; []]) []) with
                  | Ok v' => v' | Raise _ => w_verifier end))
              [0%float; 1%float] 5 <> Raise IndexError.
Proof.
  apply (ingest_search_no_index_error w_verifier [w_raw; w_raw2] (Some [[1%float; 0%float]; []]) []
           (fst (ingest_sop w_verifier [w_raw; w_raw2] (Some [[1%float; 0%float]; []]) []))).
  vm_compute. reflexivity.
Defined.
